(** * The arXiv listing spider: page parsing, deduplication and ranking

    A shallow embedding of [ArxivSpider] (daily_arxiv/spiders/arxiv.py):
    the constructor [__init__] and the callback [parse].

    Python [str] values are modelled by Rocq strings.  The two library
    methods that depend on the character repertoire, [str.strip] and
    [str.lower], are given on the ASCII range, which is what the markup
    and the URLs of a listing page are written in.  Dictionaries are
    [gmap]s, the set of seen identifiers is a [gset]. *)

From Stdlib Require Import Ascii ZArith Sorting.Sorted Sorting.Permutation.
From stdpp Require Import base option list sorting gmap strings.

Local Open Scope Z_scope.

(** ** Strings *)

Module Str.

Definition code (c : ascii) : N := N_of_ascii c.

Definition between (lo hi : N) (c : ascii) : bool :=
  ((lo <=? code c) && (code c <=? hi))%N.

(** [[0-9]], [[a-z]], [[A-Z]] *)
Definition is_digit : ascii → bool := between 48 57.
Definition is_lower : ascii → bool := between 97 122.
Definition is_upper : ascii → bool := between 65 90.

(** the characters [str.isspace] accepts below 128 *)
Definition is_space (c : ascii) : bool :=
  between 9 13 c || between 28 32 c.

Definition lower_char (c : ascii) : ascii :=
  if is_upper c then ascii_of_N (code c + 32) else c.

(** [s.lower()] *)
Fixpoint lower (s : string) : string :=
  match s with
  | EmptyString => EmptyString
  | String c s' => String (lower_char c) (lower s')
  end.

(** [s.lstrip()] *)
Fixpoint lstrip (s : string) : string :=
  match s with
  | EmptyString => EmptyString
  | String c s' => if is_space c then lstrip s' else s
  end.

(** [s.rstrip()] *)
Fixpoint rstrip (s : string) : string :=
  match s with
  | EmptyString => EmptyString
  | String c s' =>
      match rstrip s' with
      | EmptyString => if is_space c then EmptyString else String c EmptyString
      | r => String c r
      end
  end.

(** [s.strip()] *)
Definition strip (s : string) : string := rstrip (lstrip s).

(** [bool(s)]: a string is truthy when it is not empty *)
Definition truthy (s : string) : bool :=
  match s with EmptyString => false | _ => true end.

(** [s.startswith(p)], returning what follows the prefix *)
Fixpoint strip_prefix (p s : string) : option string :=
  match p with
  | EmptyString => Some s
  | String a p' =>
      match s with
      | EmptyString => None
      | String b s' => if Ascii.eqb a b then strip_prefix p' s' else None
      end
  end.

Definition starts_with (p s : string) : bool :=
  match strip_prefix p s with Some _ => true | None => false end.

(** [needle in s] *)
Fixpoint contains (needle s : string) : bool :=
  starts_with needle s ||
  match s with
  | EmptyString => false
  | String _ s' => contains needle s'
  end.

(** the longest prefix of [s] made of characters in the class [p],
    and what follows it *)
Fixpoint span (p : ascii → bool) (s : string) : string * string :=
  match s with
  | EmptyString => (EmptyString, EmptyString)
  | String c s' =>
      if p c then let '(a, b) := span p s' in (String c a, b)
      else (EmptyString, s)
  end.

(** the first [n] characters of [s], when it has that many, and the
    rest *)
Fixpoint split_at (n : nat) (s : string) : option (string * string) :=
  match n with
  | O => Some (EmptyString, s)
  | S n' =>
      match s with
      | EmptyString => None
      | String c s' =>
          match split_at n' s' with
          | Some (a, b) => Some (String c a, b)
          | None => None
          end
      end
  end.

Fixpoint all (p : ascii → bool) (s : string) : bool :=
  match s with
  | EmptyString => true
  | String c s' => p c && all p s'
  end.

(** [sep.join(parts)] *)
Fixpoint join (sep : string) (parts : list string) : string :=
  match parts with
  | [] => EmptyString
  | [x] => x
  | x :: rest => x +:+ sep +:+ join sep rest
  end.

(** [s.replace(old, new)] for a non-empty [old]: every occurrence of
    [old], found left to right without overlap, becomes [new].  The
    counter [skip] is the number of characters of an occurrence
    already replaced that are still to be passed over. *)
Fixpoint replace_from (skip : nat) (old new s : string) : string :=
  match s with
  | EmptyString => EmptyString
  | String c s' =>
      match skip with
      | S k => replace_from k old new s'
      | O =>
          if starts_with old s
          then new +:+ replace_from (Nat.pred (String.length old)) old new s'
          else String c (replace_from O old new s')
      end
  end.

Definition replace (old new s : string) : string :=
  replace_from O old new s.

(** [s.replace(old, new, 1)]: only the first occurrence *)
Fixpoint replace_first (old new s : string) : string :=
  match strip_prefix old s with
  | Some rest => new +:+ rest
  | None =>
      match s with
      | EmptyString => EmptyString
      | String c s' => String c (replace_first old new s')
      end
  end.

(** [s.split(sep)] for a one-character separator *)
Fixpoint split (sep : ascii) (s : string) : list string :=
  match s with
  | EmptyString => [EmptyString]
  | String c s' =>
      if Ascii.eqb c sep then EmptyString :: split sep s'
      else match split sep s' with
           | [] => [String c EmptyString]
           | w :: ws => String c w :: ws
           end
  end.

(** [a < b] on strings: lexicographic on character codes *)
Definition ltb (a b : string) : bool := String.ltb a b.

End Str.

(** ** Regular expressions

    The three patterns of the spider, each as the matcher [re] runs at
    one position, and the left-to-right scan of [re.search] or
    [re.findall] over it.  In the two patterns with a [+], the class
    under the [+] excludes the character that has to follow it, so the
    only run that can be followed by a match is the longest one:
    backtracking never succeeds, and [span] gives the run. *)

Module Re.

Definition not_slash (c : ascii) : bool := negb (Ascii.eqb c "/").

(** [/list/([^/]+)/new] at the start of [s]: group 1 *)
Definition list_new_at (s : string) : option string :=
  match Str.strip_prefix "/list/" s with
  | Some r =>
      let '(g, r') := Str.span not_slash r in
      if Str.truthy g && Str.starts_with "/new" r' then Some g else None
  | None => None
  end.

(** [re.search(r"/list/([^/]+)/new", s)]: group 1 of the leftmost match *)
Fixpoint search_list_new (s : string) : option string :=
  match list_new_at s with
  | Some g => Some g
  | None =>
      match s with
      | EmptyString => None
      | String _ s' => search_list_new s'
      end
  end.

(** [[0-9]{4}\.[0-9]{5}] against a whole string *)
Definition is_arxiv_id (d : string) : bool :=
  match Str.split_at 4 d with
  | Some (y, String dot n) =>
      Str.all Str.is_digit y && Ascii.eqb dot "." &&
      Nat.eqb (String.length n) 5 && Str.all Str.is_digit n
  | _ => false
  end.

(** [/abs/([0-9]{4}\.[0-9]{5})] at the start of [s]: group 1 *)
Definition abs_id_at (s : string) : option string :=
  match Str.strip_prefix "/abs/" s with
  | Some r =>
      match Str.split_at 10 r with
      | Some (d, _) => if is_arxiv_id d then Some d else None
      | None => None
      end
  | None => None
  end.

(** [re.search(r"/abs/([0-9]{4}\.[0-9]{5})", s)]: group 1 of the
    leftmost match *)
Fixpoint search_abs_id (s : string) : option string :=
  match abs_id_at s with
  | Some d => Some d
  | None =>
      match s with
      | EmptyString => None
      | String _ s' => search_abs_id s'
      end
  end.

(** [[a-z\-]] *)
Definition lower_or_hyphen (c : ascii) : bool :=
  Str.is_lower c || Ascii.eqb c "-".

(** [\(([a-z\-]+\.[A-Z]{2})\)] at the start of [s]: group 1 *)
Definition code_at (s : string) : option string :=
  match s with
  | String open r =>
      match Str.span lower_or_hyphen r with
      | (p, String dot (String u1 (String u2 (String close _)))) =>
          if Ascii.eqb open "(" && Str.truthy p && Ascii.eqb dot "." &&
             Str.is_upper u1 && Str.is_upper u2 && Ascii.eqb close ")"
          then Some (p +:+ String "." (String u1 (String u2 EmptyString)))
          else None
      | _ => None
      end
  | EmptyString => None
  end.

(** [re.findall(code_regex, s)]: group 1 of every match, left to
    right, a match starting where the previous one ended at the
    earliest.  [skip] counts the characters of the last match still to
    be passed over. *)
Fixpoint findall_codes_from (skip : nat) (s : string) : list string :=
  match s with
  | EmptyString => []
  | String _ s' =>
      match skip with
      | S k => findall_codes_from k s'
      | O =>
          match code_at s with
          | Some g => g :: findall_codes_from (S (String.length g)) s'
          | None => findall_codes_from O s'
          end
      end
  end.

Definition findall_codes (s : string) : list string :=
  findall_codes_from O s.

End Re.

(** ** [list.sort]

    [list.sort(key=...)] is a stable sort that compares keys with [<]
    only.  A stable sort has one possible result, so the algorithm is
    immaterial; insertion is used here.  With [reverse=True] CPython
    reverses the list, sorts it, and reverses the result, which keeps
    elements with equal keys in their original order. *)

Section ListSort.
Context {A K : Type} (ltb : K → K → bool) (key : A → K).

Fixpoint insert_by (x : A) (l : list A) : list A :=
  match l with
  | [] => [x]
  | y :: l' => if ltb (key y) (key x) then y :: insert_by x l' else x :: l
  end.

Fixpoint sort_by (l : list A) : list A :=
  match l with
  | [] => []
  | x :: l' => insert_by x (sort_by l')
  end.

Definition sort_by_reverse (l : list A) : list A :=
  rev (sort_by (rev l)).
End ListSort.

(** ** The page, as the selectors of [parse] see it *)

(** an [<a>] element with its [title] and [href] attributes *)
Record anchor := Anchor {
  a_title : option string;
  a_href : option string
}.

(** a [<dt>]: its anchors in document order *)
Record dt_elem := Dt { dt_anchors : list anchor }.

(** a [<dd>]: the text nodes below its [.list-subjects] elements *)
Record dd_elem := Dd { dd_subjects : list string }.

(** a child of [div#dlpage]: tag name, text nodes, and the [dt] and
    [dd] elements below it *)
Record element := Element {
  tag : string;
  texts : list string;
  dts : list dt_elem;
  dds : list dd_elem
}.

Inductive exn := ValueError.

Inductive result (A : Type) :=
| Ok (a : A)
| Raise (e : exn).
Arguments Ok {A} a.
Arguments Raise {A} e.

(** [response]: [urljoin] is the library's URL resolution against the
    page's base URL, which raises [ValueError] on a malformed URL *)
Record response := Response {
  url : string;
  urljoin : string → result string;
  dlpage : list element
}.

(** the dictionary appended to [page_items]; [categories] is
    [list(paper_categories)], the elements of a set in an order the
    language leaves open, and is kept as the set *)
Record paper := Paper {
  id : string;
  abs : string;
  pdf : string;
  categories : gset string
}.

Record candidate := Candidate {
  c_paper : paper;
  cat_priority : Z;
  section_rank : Z
}.

Definition c_id (c : candidate) : string := id (c_paper c).

(** ** The spider object *)

Record spider := Spider {
  CAT_PRIORITY : gmap string Z;
  target_categories : gset string;
  start_urls : list string;
  seen_ids : gset string;
  (** the lines sent to [self.logger.warning], oldest first *)
  warnings : list string
}.

(** a computation on the spider object that returns or raises; what it
    did to the object before raising stays done *)
Definition M (A : Type) : Type := spider → spider * result A.

Definition ret {A} (a : A) : M A := λ sp, (sp, Ok a).

Definition bind {A B} (m : M A) (f : A → M B) : M B :=
  λ sp, match m sp with
        | (sp', Ok a) => f a sp'
        | (sp', Raise e) => (sp', Raise e)
        end.

Notation "'let*' x ':=' m 'in' k" := (bind m (λ x, k))
  (at level 10, x pattern, m at level 100, k at level 200,
   format "'let*'  x  ':='  m  'in' '//' k").

Definition lift {A} (r : result A) : M A := λ sp, (sp, r).

Definition get_seen_ids : M (gset string) := λ sp, (sp, Ok (seen_ids sp)).

Definition get_CAT_PRIORITY : M (gmap string Z) :=
  λ sp, (sp, Ok (CAT_PRIORITY sp)).

(** [self.seen_ids.add(x)] *)
Definition seen_ids_add (x : string) : M unit :=
  λ sp, (Spider (CAT_PRIORITY sp) (target_categories sp) (start_urls sp)
                ({[x]} ∪ seen_ids sp) (warnings sp), Ok tt).

(** [self.logger.warning(msg)] *)
Definition logger_warning (msg : string) : M unit :=
  λ sp, (Spider (CAT_PRIORITY sp) (target_categories sp) (start_urls sp)
                (seen_ids sp) (warnings sp ++ [msg]), Ok tt).

(** a [for] loop whose body updates the local variables [b] *)
Fixpoint for_each {A B} (body : B → A → M B) (l : list A) (b : B) : M B :=
  match l with
  | [] => ret b
  | x :: l' => let* b' := body b x in for_each body l' b'
  end.

(** [d.get(k, 99)] *)
Definition priority_of (d : gmap string Z) (c : string) : Z :=
  default 99 (d !! c).

(** *** [__init__] *)

(** [env] is the value of the environment variable [CATEGORIES], if set *)
Definition init (env : option string) : spider :=
  let categories := default "cs.CV" env in
  let cats :=
    Str.strip <$> filter (λ c, Str.truthy (Str.strip c) = true)
                         (Str.split "," categories) in
  let CAT_PRIORITY : gmap string Z := {[ "math.QA" := 0; "math.RT" := 1 ]} in
  let cats := sort_by Z.ltb (priority_of CAT_PRIORITY) cats in
  {| CAT_PRIORITY := CAT_PRIORITY;
     target_categories := list_to_set cats;
     start_urls := (λ cat, "https://arxiv.org/list/" +:+ cat +:+ "/new") <$> cats;
     seen_ids := ∅;
     warnings := [] |}.

(** *** [parse] *)

(** [mcat.group(1) if mcat else ""] *)
Definition source_cat_of (page_url : string) : string :=
  match Re.search_list_new page_url with
  | Some g => g
  | None => ""
  end.

(** the [if]/[elif] chain on a heading's text *)
Definition heading_rank (heading : string) : Z :=
  if Str.contains "new submission" heading then 0
  else if Str.contains "cross submission" heading then 1
  else if Str.contains "replacement" heading then 2
  else 3.

(** ["".join(section.css("::text").getall()).strip().lower()] *)
Definition heading_of (section : element) : string :=
  Str.lower (Str.strip (Str.join "" (texts section))).

(** [sel.css("a[...]::attr(href)").get()]: the [href] of the first
    anchor that the attribute selector accepts and that has one *)
Definition css_href (accepts : anchor → bool) (dt : dt_elem) : option string :=
  head (omap (λ a, if accepts a then a_href a else None) (dt_anchors dt)).

(** [a[title='Abstract']] *)
Definition titled_abstract (a : anchor) : bool :=
  bool_decide (a_title a = Some "Abstract").

(** [a[href*='/abs/']] *)
Definition href_has_abs (a : anchor) : bool :=
  match a_href a with
  | Some h => Str.contains "/abs/" h
  | None => false
  end.

(** [bool(x)] for [x] a string or [None] *)
Definition truthy_opt (x : option string) : bool :=
  match x with
  | Some h => Str.truthy h
  | None => false
  end.

(** the two look-ups of the abstract link *)
Definition abs_href_of (paper_dt : dt_elem) : option string :=
  let abs_href := css_href titled_abstract paper_dt in
  if truthy_opt abs_href then abs_href
  else css_href href_has_abs paper_dt.

(** [" ".join(t.strip() for t in subj_parts if t.strip())] *)
Definition subjects_text_of (paper_dd : dd_elem) : string :=
  Str.join " "
    (Str.strip <$> filter (λ t, Str.truthy (Str.strip t) = true)
                          (dd_subjects paper_dd)).

Definition warning_line (arxiv_id source_cat : string) : string :=
  "Could not extract categories for paper " +:+ arxiv_id +:+
  ", source page = " +:+ source_cat.

(** the body of [for paper_dt, paper_dd in zip(dts, dds)]; a [continue]
    returns [page_items] as it is *)
Definition entry_body (resp : response) (source_cat : string)
    (cat_priority current_section_rank : Z)
    (page_items : list candidate) (entry : dt_elem * dd_elem)
    : M (list candidate) :=
  let '(paper_dt, paper_dd) := entry in
  let abs_href := abs_href_of paper_dt in
  match abs_href with
  | None => ret page_items
  | Some href =>
      if negb (Str.truthy href) then ret page_items else
      let* abs_url := lift (urljoin resp href) in
      match Re.search_abs_id abs_url with
      | None => ret page_items
      | Some arxiv_id =>
          let* seen := get_seen_ids in
          if bool_decide (arxiv_id ∈ seen) then ret page_items else
          let* _ := seen_ids_add arxiv_id in
          let subjects_text := subjects_text_of paper_dd in
          let categories_in_paper := Re.findall_codes subjects_text in
          let paper_categories : gset string := list_to_set categories_in_paper in
          let* _ := (if negb (Str.truthy subjects_text)
                     then logger_warning (warning_line arxiv_id source_cat)
                     else ret tt) in
          ret (page_items ++
               [ {| c_paper := {| id := arxiv_id;
                                  abs := abs_url;
                                  pdf := Str.replace "/abs/" "/pdf/" abs_url;
                                  categories := paper_categories |};
                    cat_priority := cat_priority;
                    section_rank := current_section_rank |} ])
      end
  end.

(** the local variables the outer loop updates *)
Record locals := Locals {
  page_items : list candidate;
  current_section_rank : Z
}.

(** the body of [for section in response.xpath(...)] *)
Definition section_body (resp : response) (source_cat : string)
    (cat_priority : Z) (loc : locals) (section : element) : M locals :=
  let tag := Str.lower (tag section) in
  if bool_decide (tag = "h3") then
    ret (Locals (page_items loc) (heading_rank (heading_of section)))
  else if bool_decide (tag ≠ "dl") then ret loc
  else
    let* items := for_each
                    (entry_body resp source_cat cat_priority
                                (current_section_rank loc))
                    (zip (dts section) (dds section)) (page_items loc) in
    ret (Locals items (current_section_rank loc)).

(** [//div[@id='dlpage']/*[self::h3 or self::dl]] *)
Definition xpath_sections (resp : response) : list element :=
  filter (λ e, tag e = "h3" ∨ tag e = "dl") (dlpage resp).

(** [parse] up to the sort: the candidates in page order *)
Definition collect (resp : response) : M (list candidate) :=
  let source_cat := source_cat_of (url resp) in
  let* priorities := get_CAT_PRIORITY in
  let cat_priority := priority_of priorities source_cat in
  let* loc := for_each (section_body resp source_cat cat_priority)
                       (xpath_sections resp) (Locals [] 3) in
  ret (page_items loc).

(** the three [page_items.sort] calls *)
Definition rank_items (page_items : list candidate) : list candidate :=
  let page_items := sort_by_reverse Str.ltb c_id page_items in
  let page_items := sort_by Z.ltb section_rank page_items in
  sort_by Z.ltb cat_priority page_items.

(** [parse]: the records it yields, in order; the two [pop] calls
    leave [c_paper] *)
Definition parse (resp : response) : M (list paper) :=
  let* page_items := collect resp in
  ret (c_paper <$> rank_items page_items).

(** ** A run: the pages are parsed one after the other on one spider
    object, and a page whose callback raises yields nothing *)

Fixpoint run (pages : list response) (sp : spider) : spider * list paper :=
  match pages with
  | [] => (sp, [])
  | resp :: rest =>
      let '(sp', r) := parse resp sp in
      let '(sp'', out) := run rest sp' in
      (sp'', match r with Ok ps => ps | Raise _ => [] end ++ out)
  end.

(** *** Sample pages *)

(** URL resolution for hrefs that are absolute or start at the root *)
Definition urljoin_arxiv (href : string) : result string :=
  if Str.starts_with "https://" href then Ok href
  else if Str.starts_with "/" href then Ok ("https://arxiv.org" +:+ href)
  else Raise ValueError.

Definition entry (href : string) (subjects : list string) : dt_elem * dd_elem :=
  (Dt [Anchor (Some "Abstract") (Some href)], Dd subjects).

Definition h3 (text : string) : element := Element "h3" [text] [] [].

Definition dl (entries : list (dt_elem * dd_elem)) : element :=
  Element "dl" [] (fst <$> entries) (snd <$> entries).

Definition sample_page : response :=
  Response "https://arxiv.org/list/math.QA/new" urljoin_arxiv
    [ h3 "New submissions (showing 2 of 2 entries)";
      dl [ entry "/abs/2406.00001" ["Subjects: "; "Quantum Algebra (math.QA)"; "; Representation Theory (math.RT)"];
           entry "/abs/2406.00007" [] ];
      h3 "Cross submissions (showing 2 of 2 entries)";
      dl [ entry "/abs/2406.00003" ["High Energy Physics - Theory (hep-th)"];
           entry "/abs/2406.00001" ["dup"];
           entry "/abs/math/0601001" ["old"];
           entry "/abs/2406.000099v2" ["long"] ];
      h3 "Replacement submissions (showing 1 of 1 entries)";
      dl [ entry "/abs/2405.12345" ["Quantum Algebra (math.QA)"] ] ].

(** ** Orders used to state the result of the sorts *)

(** [a >= b] on strings *)
Definition str_ge (a b : string) : Prop := Str.ltb a b = false.

(** ascending in [key], and in the order [R] among equal keys *)
Definition then_by {A K : Type} (ltb : K → K → bool) (key : A → K)
    (R : relation A) : relation A :=
  λ a b, ltb (key a) (key b) = true ∨ (key a = key b ∧ R a b).

(** (cat_priority ascending, section_rank ascending, id descending) *)
Definition rank_order : relation candidate :=
  then_by Z.ltb cat_priority
    (then_by Z.ltb section_rank
       (flip (then_by Str.ltb c_id (λ _ _, True)))).

(** ** Invariants of the loops *)

(** what [entry_body] establishes for the record it appends on a page
    of priority [prio] *)
Definition well_formed (prio : Z) (c : candidate) : Prop :=
  Re.search_abs_id (abs (c_paper c)) = Some (c_id c) ∧
  pdf (c_paper c) = Str.replace "/abs/" "/pdf/" (abs (c_paper c)) ∧
  cat_priority c = prio.

(** [new] are records appended while the spider went from [sp] to
    [sp']: their identifiers are distinct, were not seen before and are
    seen now *)
Definition fresh_batch (sp sp' : spider) (new : list candidate) : Prop :=
  seen_ids sp ⊆ seen_ids sp' ∧
  CAT_PRIORITY sp' = CAT_PRIORITY sp ∧
  NoDup (c_id <$> new) ∧
  ∀ c, c ∈ new → (c_id c ∉ seen_ids sp) ∧ (c_id c ∈ seen_ids sp').

(** ** The words of the specification *)

(** [needle] occurs in [s] *)
Definition occurs (needle s : string) : Prop :=
  ∃ a b, s = a +:+ needle +:+ b.

(** four digits, a dot, five digits *)
Definition id_format (s : string) : Prop :=
  ∃ y n, s = y +:+ "." +:+ n ∧
         String.length y = 4%nat ∧ String.length n = 5%nat ∧
         Str.all Str.is_digit y = true ∧ Str.all Str.is_digit n = true.

(** the URL contains "/abs/" followed by four digits, a dot and five
    digits *)
Definition has_abs_id (u : string) : Prop :=
  ∃ d, id_format d ∧ occurs ("/abs/" +:+ d) u.

(** the URL matches [/list/([^/]+)/new] somewhere *)
Definition matches_list_new (u : string) : Prop :=
  ∃ g, g ≠ "" ∧ Str.all Re.not_slash g = true ∧
       occurs ("/list/" +:+ g +:+ "/new") u.

(** the number of positions of [s] at which [needle] starts *)
Fixpoint occurrences (needle s : string) : nat :=
  ((if Str.starts_with needle s then 1 else 0) +
   match s with
   | EmptyString => 0
   | String _ s' => occurrences needle s'
   end)%nat.

(** the candidates [parse] has collected when it reaches the sorts *)
Definition candidates_of (resp : response) (sp : spider) : list candidate :=
  match collect resp sp with
  | (_, Ok items) => items
  | (_, Raise _) => []
  end.

(** a page in the older layout, headed "Cross-lists" *)
Definition cross_lists_page : response :=
  Response "https://arxiv.org/list/math.QA/new" urljoin_arxiv
    [ h3 "Cross-lists for Mon, 3 Jun 24";
      dl [ entry "/abs/2406.00003" ["Quantum Algebra (math.QA)"] ] ].

(** a page with an abstract link in whose path "/abs/" occurs twice *)
Definition double_abs_page : response :=
  Response "https://arxiv.org/list/math.QA/new" urljoin_arxiv
    [ h3 "New submissions (showing 1 of 1 entries)";
      dl [ entry "https://arxiv.org/abs/x/abs/2406.01234"
                 ["Quantum Algebra (math.QA)"] ] ].

(** a lower-case-and-hyphen prefix, a dot and two upper-case letters *)
Definition code_shape (c : string) : Prop :=
  ∃ p u1 u2, c = p +:+ String "." (String u1 (String u2 "")) ∧
             p ≠ "" ∧ Str.all Re.lower_or_hyphen p = true ∧
             Str.is_upper u1 = true ∧ Str.is_upper u2 = true.

(** candidates with chosen sort keys *)
Definition cand (i : string) (prio sec : Z) : candidate :=
  Candidate (Paper i ("https://arxiv.org/abs/" +:+ i)
                   ("https://arxiv.org/pdf/" +:+ i) ∅) prio sec.

Definition sample_candidates : list candidate :=
  [ cand "2406.00001" 1 0; cand "2406.00005" 0 1;
    cand "2406.00003" 0 1; cand "2406.00009" 0 0 ].

(** the spider after the sample page *)
Definition spider_after_sample : spider := (parse sample_page (init None)).1.

(** ** What a page does, entry by entry *)

(** [c] is the record [entry_body] builds for [entry] *)
Definition made_by (resp : response) (prio rank : Z)
    (entry : dt_elem * dd_elem) (c : candidate) : Prop :=
  ∃ href abs_url arxiv_id,
    abs_href_of entry.1 = Some href ∧
    urljoin resp href = Ok abs_url ∧
    Re.search_abs_id abs_url = Some arxiv_id ∧
    c = {| c_paper :=
             {| id := arxiv_id;
                abs := abs_url;
                pdf := Str.replace "/abs/" "/pdf/" abs_url;
                categories :=
                  list_to_set (Re.findall_codes (subjects_text_of entry.2)) |};
           cat_priority := prio;
           section_rank := rank |}.

(** [c] is the record of an entry of the list block [section] *)
Definition from_block (resp : response) (prio : Z) (section : element)
    (c : candidate) : Prop :=
  Str.lower (tag section) = "dl" ∧
  ∃ rank entry,
    0 ≤ rank ≤ 3 ∧
    entry ∈ zip (dts section) (dds section) ∧
    made_by resp prio rank entry c.

(** what the spider object looks like after the records [new] were
    appended: settings untouched, [seen_ids] larger by the identifiers
    of [new], at most one more warning per record *)
Definition effect (sp sp' : spider) (new : list candidate) : Prop :=
  CAT_PRIORITY sp' = CAT_PRIORITY sp ∧
  target_categories sp' = target_categories sp ∧
  start_urls sp' = start_urls sp ∧
  seen_ids sp' = list_to_set (c_id <$> new) ∪ seen_ids sp ∧
  ∃ lines, warnings sp' = warnings sp ++ lines ∧
           (length lines ≤ length new)%nat.



(** ** [__init__], step by step *)

(** [cats] before the sort: the stripped, non-empty tokens of
    [CATEGORIES] *)
Definition requested_categories (env : option string) : list string :=
  Str.strip <$> filter (λ c, Str.truthy (Str.strip c) = true)
                       (Str.split "," (default "cs.CV" env)).

(** [f"https://arxiv.org/list/{cat}/new"] *)
Definition list_url (cat : string) : string :=
  "https://arxiv.org/list/" +:+ cat +:+ "/new".

(** the warnings [lines] are about records of [new] that have no
    categories *)
Definition warned (source_cat : string) (new : list candidate)
    (lines : list string) : Prop :=
  Forall (λ line, ∃ c, c ∈ new ∧
                       line = warning_line (c_id c) source_cat ∧
                       categories (c_paper c) = ∅) lines.

(** the records of the sample page, in the order [parse] yields them *)
Definition sample_records : list paper :=
  match (parse sample_page (init None)).2 with
  | Ok ps => ps
  | Raise _ => []
  end.

(** the second list block of the sample page and its first entry *)
Definition sample_cross_block : element :=
  dl [ entry "/abs/2406.00003" ["High Energy Physics - Theory (hep-th)"];
       entry "/abs/2406.00001" ["dup"];
       entry "/abs/math/0601001" ["old"];
       entry "/abs/2406.000099v2" ["long"] ].

Definition sample_cross_entry : dt_elem * dd_elem :=
  entry "/abs/2406.00003" ["High Energy Physics - Theory (hep-th)"].

(** the first record of the sample page with categories *)
Definition sample_record_00001 : paper :=
  Paper "2406.00001" "https://arxiv.org/abs/2406.00001"
        "https://arxiv.org/pdf/2406.00001"
        (list_to_set ["math.QA"; "math.RT"]).

(** a list block with two [dt] and one [dd] *)
Definition uneven_block : element :=
  Element "dl" []
    [ Dt [Anchor (Some "Abstract") (Some "/abs/2406.00001")];
      Dt [Anchor (Some "Abstract") (Some "/abs/2406.00002")] ]
    [ Dd [] ].

(** a page with headings and an empty list block *)
Definition headings_only_page : response :=
  Response "https://arxiv.org/list/math.QA/new" urljoin_arxiv
    [ h3 "New submissions (showing 0 of 0 entries)"; dl [] ].

(** a [dt] whose first anchor is the PDF link *)
Definition two_anchor_dt : dt_elem :=
  Dt [ Anchor (Some "Download PDF") (Some "/pdf/2406.00001");
       Anchor (Some "Abstract") (Some "/abs/2406.00001") ].

(** * Properties *)

(** ** Facts on [<] for the two key types *)

Lemma Z_ltb_trans (x y z : Z) :
  Z.ltb x y = true → Z.ltb y z = true → Z.ltb x z = true.
Proof. rewrite !Z.ltb_lt. lia. Qed.

Lemma Z_ltb_tricho (x y : Z) :
  Z.ltb x y = false → Z.ltb y x = false → x = y.
Proof. rewrite !Z.ltb_ge. lia. Qed.

Lemma str_ltb_compare (a b : string) :
  Str.ltb a b = true ↔ String.compare a b = Lt.
Proof.
  unfold Str.ltb, String.ltb. destruct (String.compare a b); split; congruence.
Qed.

Lemma str_compare_refl (a : string) : String.compare a a = Eq.
Proof.
  induction a as [|c a IH]; simpl; [done|].
  unfold Ascii.compare. by rewrite N.compare_refl.
Qed.

Lemma str_ltb_irrefl (a : string) : Str.ltb a a = false.
Proof.
  destruct (Str.ltb a a) eqn:E; [|done].
  apply str_ltb_compare in E. by rewrite str_compare_refl in E.
Qed.

Lemma str_ltb_tricho (a b : string) :
  Str.ltb a b = false → Str.ltb b a = false → a = b.
Proof.
  unfold Str.ltb, String.ltb. rewrite (String.compare_antisym b a).
  destruct (String.compare a b) eqn:E; simpl; try congruence.
  intros _ _. by apply String.compare_eq_iff.
Qed.

Lemma str_ltb_le (a b : string) : Str.ltb a b = true → String.le a b.
Proof.
  intros H%str_ltb_compare. unfold String.le, String.leb. by rewrite H.
Qed.

Lemma str_ltb_asym (a b : string) :
  Str.ltb a b = true → Str.ltb b a = false.
Proof.
  intros H%str_ltb_compare. unfold Str.ltb, String.ltb.
  rewrite String.compare_antisym, H. done.
Qed.

Lemma str_ltb_trans (a b c : string) :
  Str.ltb a b = true → Str.ltb b c = true → Str.ltb a c = true.
Proof.
  intros Hab Hbc.
  assert (String.le a c) as Hac.
  { trans b; by apply str_ltb_le. }
  destruct (Str.ltb a c) eqn:E; [done|].
  assert (a = c) as ->.
  { apply (anti_symm String.le); [done|].
    unfold String.le, String.leb. rewrite String.compare_antisym.
    unfold Str.ltb, String.ltb in E.
    destruct (String.compare a c); simpl; try done. }
  apply str_ltb_asym in Hab. congruence.
Qed.

(** ** A stable sort refines the order it finds *)

Section SortFacts.
Context {A K : Type} (ltb : K → K → bool) (key : A → K).
Hypothesis ltb_trans :
  ∀ x y z, ltb x y = true → ltb y z = true → ltb x z = true.
Hypothesis ltb_tricho :
  ∀ x y, ltb x y = false → ltb y x = false → x = y.

Lemma insert_by_perm (x : A) (l : list A) :
  insert_by ltb key x l ≡ₚ x :: l.
Proof.
  induction l as [|y l IH]; simpl; [done|].
  destruct (ltb (key y) (key x)); [|done].
  rewrite IH. apply Permutation_swap.
Qed.

Lemma sort_by_perm (l : list A) : sort_by ltb key l ≡ₚ l.
Proof.
  induction l as [|x l IH]; simpl; [done|].
  by rewrite insert_by_perm, IH.
Qed.

Lemma sort_by_reverse_perm (l : list A) : sort_by_reverse ltb key l ≡ₚ l.
Proof.
  unfold sort_by_reverse.
  by rewrite <- Permutation_rev, sort_by_perm, <- Permutation_rev.
Qed.

Lemma then_by_step (R : relation A) (x y z : A) :
  ltb (key y) (key x) = false → R x y → R x z →
  then_by ltb key R y z → then_by ltb key R x z.
Proof.
  intros Hyx Rxy Rxz [Hlt|[Heq Ryz]].
  - destruct (ltb (key x) (key y)) eqn:Hxy.
    + left. eauto.
    + left. by rewrite (ltb_tricho _ _ Hxy Hyx).
  - destruct (ltb (key x) (key y)) eqn:Hxy.
    + left. by rewrite <- Heq.
    + right. split; [|done].
      by rewrite (ltb_tricho _ _ Hxy Hyx).
Qed.

Lemma insert_by_sorted (R : relation A) (x : A) (s : list A) :
  StronglySorted (then_by ltb key R) s → Forall (R x) s →
  StronglySorted (then_by ltb key R) (insert_by ltb key x s).
Proof.
  induction s as [|y s IH]; simpl; intros Hs Hx.
  { repeat constructor. }
  apply StronglySorted_cons in Hs as [Hy Hs].
  apply Forall_cons in Hx as [Rxy Hx].
  destruct (ltb (key y) (key x)) eqn:Hyx.
  - apply StronglySorted_cons. split; [|by apply IH].
    rewrite insert_by_perm. constructor; [by left|done].
  - apply StronglySorted_cons. split; [|by apply StronglySorted_cons].
    constructor.
    + destruct (ltb (key x) (key y)) eqn:Hxy; [by left|].
      right. split; [|done]. by apply ltb_tricho.
    + rewrite Forall_forall in Hy, Hx |- *. intros z Hz.
      eapply then_by_step; eauto.
Qed.

Lemma sort_by_sorted (R : relation A) (l : list A) :
  StronglySorted R l →
  StronglySorted (then_by ltb key R) (sort_by ltb key l).
Proof.
  induction l as [|x l IH]; simpl; intros Hl.
  { constructor. }
  apply StronglySorted_cons in Hl as [Hx Hl].
  apply insert_by_sorted; [by apply IH|].
  by rewrite sort_by_perm.
Qed.

Lemma StronglySorted_rev (R : relation A) (l : list A) :
  StronglySorted R l → StronglySorted (flip R) (rev l).
Proof.
  induction l as [|x l IH]; simpl; intros Hl.
  { constructor. }
  apply StronglySorted_cons in Hl as [Hx Hl].
  apply StronglySorted_app. split_and!.
  - intros a b Ha Hb. apply list_elem_of_singleton in Hb as ->.
    rewrite <- Permutation_rev in Ha.
    rewrite Forall_forall in Hx. by apply Hx.
  - by apply IH.
  - repeat constructor.
Qed.

Lemma sort_by_reverse_sorted (l : list A) :
  StronglySorted (flip (then_by ltb key (λ _ _, True)))
                 (sort_by_reverse ltb key l).
Proof.
  apply StronglySorted_rev, sort_by_sorted.
  generalize (rev l). intros k. induction k; constructor; [done|].
  by apply Forall_forall.
Qed.
End SortFacts.

Lemma StronglySorted_lookup {A} (R : relation A) (l : list A) (i j : nat) a b :
  StronglySorted R l → (i < j)%nat →
  l !! i = Some a → l !! j = Some b → R a b.
Proof.
  intros Hl. revert i j. induction Hl as [|x l Hl IH Hx]; intros i j Hij Hi Hj.
  { done. }
  destruct j as [|j]; [lia|]. simpl in Hj.
  destruct i as [|i]; simpl in Hi.
  - injection Hi as ->. rewrite Forall_forall in Hx.
    apply Hx, list_elem_of_lookup. eauto.
  - apply (IH i j); [lia|done..].
Qed.

(** ** The order of a page's records *)

Lemma rank_items_perm (items : list candidate) : rank_items items ≡ₚ items.
Proof.
  unfold rank_items.
  by rewrite !sort_by_perm, sort_by_reverse_perm.
Qed.

Lemma rank_items_sorted (items : list candidate) :
  StronglySorted rank_order (rank_items items).
Proof.
  unfold rank_items, rank_order.
  apply sort_by_sorted; [exact Z_ltb_trans | exact Z_ltb_tricho |].
  apply sort_by_sorted; [exact Z_ltb_trans | exact Z_ltb_tricho |].
  apply sort_by_reverse_sorted; [exact str_ltb_trans | exact str_ltb_tricho].
Qed.

Lemma rank_order_inv (a b : candidate) :
  rank_order a b →
  cat_priority a < cat_priority b ∨
  (cat_priority a = cat_priority b ∧
   (section_rank a < section_rank b ∨
    (section_rank a = section_rank b ∧ str_ge (c_id a) (c_id b)))).
Proof.
  unfold rank_order, then_by, flip, str_ge.
  intros [H|[-> [H|[-> [H|[-> _]]]]]].
  - left. by apply Z.ltb_lt.
  - right. split; [done|]. left. by apply Z.ltb_lt.
  - right. split; [done|]. right. split; [done|]. by apply str_ltb_asym.
  - right. split; [done|]. right. split; [done|]. apply str_ltb_irrefl.
Qed.

Lemma rank_items_lookup_order (items : list candidate) (i j : nat) a b :
  rank_items items !! i = Some a → rank_items items !! j = Some b →
  (i < j)%nat → rank_order a b.
Proof.
  intros Hi Hj Hij.
  by eapply (StronglySorted_lookup _ _ i j), Hj; [apply rank_items_sorted|..].
Qed.

(** C1.  Take the candidates of a page, whose identifiers are distinct
    (see [collect_ids_NoDup]), and let [a] and [b] be the records at
    positions [i] and [j] after the three sorts, which is the order in
    which [parse] yields them.  A smaller cat_priority comes first; with
    equal cat_priority a smaller section_rank comes first; with both
    equal, of two different records [a] comes first exactly when
    [a.id >= b.id]. *)
Theorem sort_correct (items : list candidate) (i j : nat) (a b : candidate) :
  NoDup (c_id <$> items) →
  rank_items items !! i = Some a →
  rank_items items !! j = Some b →
  (cat_priority a < cat_priority b → (i < j)%nat) ∧
  (cat_priority a = cat_priority b →
   section_rank a < section_rank b → (i < j)%nat) ∧
  (cat_priority a = cat_priority b →
   section_rank a = section_rank b →
   i ≠ j → ((i < j)%nat ↔ str_ge (c_id a) (c_id b))).
Proof.
  intros Hnd Hi Hj.
  assert (∀ P : Prop, ((j < i)%nat → rank_order b a → P) →
            (i = j → a = b → P) → ((i < j)%nat → rank_order a b → P) → P)
    as Hcases.
  { intros P Hgt Heq Hlt.
    destruct (lt_eq_lt_dec i j) as [[Hij|Hij]|Hij].
    - apply Hlt; [done|]. by apply (rank_items_lookup_order items i j).
    - apply Heq; [done|]. subst. congruence.
    - apply Hgt; [done|]. by apply (rank_items_lookup_order items j i). }
  split_and!.
  - intros Hc. apply Hcases; [|intros _ ->; lia|done].
    intros _ Hba%rank_order_inv. lia.
  - intros Hc Hs. apply Hcases; [|intros _ ->; lia|done].
    intros _ Hba%rank_order_inv. lia.
  - intros Hc Hs Hne. split.
    + intros Hij.
      pose proof (rank_items_lookup_order items i j a b Hi Hj Hij) as Hab.
      apply rank_order_inv in Hab. destruct Hab as [?|[_ [?|[_ ?]]]]; [lia..|done].
    + intros Hge. apply Hcases; [|done..].
      intros Hji Hba. exfalso. apply Hne.
      assert (c_id a = c_id b) as Hid.
      { apply rank_order_inv in Hba as [?|[_ [?|[_ Hba]]]]; [lia..|].
        by apply str_ltb_tricho. }
      rewrite <- rank_items_perm in Hnd.
      apply (NoDup_lookup _ i j (c_id a) Hnd);
        rewrite list_lookup_fmap; [by rewrite Hi | by rewrite Hj, Hid].
Qed.

(** ** One entry *)

Section Entry.
Context (resp : response) (source_cat : string) (prio rank : Z).
Context (items : list candidate) (paper_dt : dt_elem) (paper_dd : dd_elem).
Context (sp : spider).

Abbreviation body :=
  (entry_body resp source_cat prio rank items (paper_dt, paper_dd) sp).

Lemma entry_no_link :
  abs_href_of paper_dt = None → body = (sp, Ok items).
Proof. unfold entry_body. by intros ->. Qed.

Lemma entry_urljoin_raises href e :
  abs_href_of paper_dt = Some href → Str.truthy href = true →
  urljoin resp href = Raise e → body = (sp, Raise e).
Proof.
  unfold entry_body, bind, lift. by intros -> -> ->.
Qed.

Lemma entry_no_id href abs_url :
  abs_href_of paper_dt = Some href →
  urljoin resp href = Ok abs_url →
  Re.search_abs_id abs_url = None → body = (sp, Ok items).
Proof.
  unfold entry_body, bind, lift. intros -> -> ->.
  by destruct (Str.truthy href).
Qed.

Lemma entry_seen href abs_url arxiv_id :
  abs_href_of paper_dt = Some href →
  urljoin resp href = Ok abs_url →
  Re.search_abs_id abs_url = Some arxiv_id →
  arxiv_id ∈ seen_ids sp → body = (sp, Ok items).
Proof.
  unfold entry_body, bind, lift, get_seen_ids. intros -> -> -> Hin.
  destruct (Str.truthy href); simpl; [|done].
  by rewrite bool_decide_eq_true_2.
Qed.

Lemma entry_new href abs_url arxiv_id :
  abs_href_of paper_dt = Some href → Str.truthy href = true →
  urljoin resp href = Ok abs_url →
  Re.search_abs_id abs_url = Some arxiv_id →
  arxiv_id ∉ seen_ids sp →
  body =
    ({| CAT_PRIORITY := CAT_PRIORITY sp;
        target_categories := target_categories sp;
        start_urls := start_urls sp;
        seen_ids := {[arxiv_id]} ∪ seen_ids sp;
        warnings :=
          if Str.truthy (subjects_text_of paper_dd) then warnings sp
          else warnings sp ++ [warning_line arxiv_id source_cat] |},
     Ok (items ++
         [ {| c_paper :=
                {| id := arxiv_id;
                   abs := abs_url;
                   pdf := Str.replace "/abs/" "/pdf/" abs_url;
                   categories :=
                     list_to_set
                       (Re.findall_codes (subjects_text_of paper_dd)) |};
              cat_priority := prio;
              section_rank := rank |} ])).
Proof.
  unfold entry_body, bind, lift, get_seen_ids, seen_ids_add.
  intros -> -> -> -> Hin. simpl.
  rewrite bool_decide_eq_false_2 by done.
  destruct (Str.truthy (subjects_text_of paper_dd)); reflexivity.
Qed.

(** the abstract link found by either matcher is never empty, so the
    second [if not abs_href] only catches [None] *)
Lemma abs_href_of_truthy href :
  abs_href_of paper_dt = Some href → Str.truthy href = true.
Proof.
  unfold abs_href_of.
  destruct (truthy_opt (css_href titled_abstract paper_dt)) eqn:E.
  { intros H. by rewrite H in E. }
  unfold css_href. intros H%head_Some_elem_of.
  apply list_elem_of_omap in H as (a & _ & Ha).
  unfold href_has_abs in Ha. destruct (a_href a) as [h|]; [|done].
  destruct (Str.contains "/abs/" h) eqn:Hc; [|done].
  injection Ha as ->. by destruct href.
Qed.

(** the shapes an entry's outcome can take *)
Lemma entry_cases :
  body = (sp, Ok items) ∨
  (∃ e, body = (sp, Raise e)) ∨
  (∃ href abs_url arxiv_id,
     abs_href_of paper_dt = Some href ∧ Str.truthy href = true ∧
     urljoin resp href = Ok abs_url ∧
     Re.search_abs_id abs_url = Some arxiv_id ∧
     arxiv_id ∉ seen_ids sp).
Proof.
  destruct (abs_href_of paper_dt) as [href|] eqn:Hh;
    [|left; by apply entry_no_link].
  pose proof (abs_href_of_truthy _ Hh) as Ht.
  destruct (urljoin resp href) as [abs_url|e] eqn:Hu;
    [|right; left; eauto using entry_urljoin_raises].
  destruct (Re.search_abs_id abs_url) as [arxiv_id|] eqn:Hs;
    [|left; by eapply entry_no_id].
  destruct (decide (arxiv_id ∈ seen_ids sp)) as [Hin|Hin];
    [left; by eapply entry_seen|].
  right; right. naive_solver.
Qed.
End Entry.

(** ** The loops *)

Lemma fresh_batch_nil (sp : spider) : fresh_batch sp sp [].
Proof.
  unfold fresh_batch. split_and!; [done..|constructor|]. by intros c ?%elem_of_nil.
Qed.

Lemma fresh_batch_app (sp1 sp2 sp3 : spider) (new1 new2 : list candidate) :
  fresh_batch sp1 sp2 new1 → fresh_batch sp2 sp3 new2 →
  fresh_batch sp1 sp3 (new1 ++ new2).
Proof.
  intros (Hs1 & Hp1 & Hn1 & Hc1) (Hs2 & Hp2 & Hn2 & Hc2).
  unfold fresh_batch. split_and!.
  - by trans (seen_ids sp2).
  - congruence.
  - rewrite fmap_app. apply NoDup_app. split_and!; [done| |done].
    intros x (c1 & -> & Hin1)%list_elem_of_fmap (c2 & Heq & Hin2)%list_elem_of_fmap.
    destruct (Hc1 _ Hin1) as [_ Hx1]. destruct (Hc2 _ Hin2) as [Hx2 _].
    apply Hx2. by rewrite <- Heq.
  - intros c [Hin|Hin]%elem_of_app.
    + destruct (Hc1 _ Hin) as [Hx1 Hx2]. split; [done|]. by apply Hs2.
    + destruct (Hc2 _ Hin) as [Hx1 Hx2]. split; [|done].
      intros Hx. by apply Hx1, Hs1.
Qed.

Lemma entry_batch resp source_cat prio rank items entry sp sp' r :
  entry_body resp source_cat prio rank items entry sp = (sp', r) →
  ∃ new, fresh_batch sp sp' new ∧
         Forall (λ c, well_formed prio c ∧ section_rank c = rank) new ∧
         ∀ items', r = Ok items' → items' = items ++ new.
Proof.
  destruct entry as [paper_dt paper_dd]. intros Hbody.
  destruct (entry_cases resp source_cat prio rank items paper_dt paper_dd sp)
    as [H|[[e H]|(href & abs_url & arxiv_id & Hh & Ht & Hu & Hs & Hin)]].
  - rewrite H in Hbody. injection Hbody as <- <-. exists [].
    split_and!; [apply fresh_batch_nil|constructor|].
    intros ? [= <-]. by rewrite app_nil_r.
  - rewrite H in Hbody. injection Hbody as <- <-. exists [].
    split_and!; [apply fresh_batch_nil|constructor|done].
  - rewrite (entry_new _ _ _ _ _ _ _ _ _ _ _ Hh Ht Hu Hs Hin) in Hbody.
    injection Hbody as <- <-. eexists [_]. split_and!; cycle 2.
    + by intros ? [= <-].
    + unfold fresh_batch; simpl. split_and!; [set_solver|done| |].
      * apply NoDup_singleton.
      * intros c Hc. apply list_elem_of_singleton in Hc. subst c.
        unfold c_id; simpl. set_solver.
    + repeat constructor. by unfold c_id.
Qed.

Lemma entries_batch resp source_cat prio rank entries items sp sp' r :
  for_each (entry_body resp source_cat prio rank) entries items sp = (sp', r) →
  ∃ new, fresh_batch sp sp' new ∧
         Forall (λ c, well_formed prio c ∧ section_rank c = rank) new ∧
         ∀ items', r = Ok items' → items' = items ++ new.
Proof.
  revert items sp. induction entries as [|entry entries IH]; intros items sp.
  { intros [= <- <-]. exists []. split_and!; [apply fresh_batch_nil|constructor|].
    intros ? [= <-]. by rewrite app_nil_r. }
  simpl. unfold bind at 1.
  destruct (entry_body _ _ _ _ items entry sp) as [sp1 r1] eqn:H1.
  apply entry_batch in H1 as (new1 & Hb1 & Hw1 & Hi1).
  destruct r1 as [items1|e].
  - intros (new2 & Hb2 & Hw2 & Hi2)%IH. exists (new1 ++ new2). split_and!.
    + by eapply fresh_batch_app.
    + by apply Forall_app.
    + intros items' ->%Hi2. rewrite (Hi1 items1 eq_refl). by rewrite app_assoc.
  - intros [= <- <-]. exists new1. done.
Qed.

Lemma section_batch resp source_cat prio loc section sp sp' r :
  section_body resp source_cat prio loc section sp = (sp', r) →
  ∃ new, fresh_batch sp sp' new ∧ Forall (well_formed prio) new ∧
         ∀ loc', r = Ok loc' → page_items loc' = page_items loc ++ new.
Proof.
  unfold section_body. case_bool_decide.
  { intros [= <- <-]. exists []. split_and!; [apply fresh_batch_nil|constructor|].
    intros ? [= <-]. simpl. by rewrite app_nil_r. }
  case_bool_decide.
  { intros [= <- <-]. exists []. split_and!; [apply fresh_batch_nil|constructor|].
    intros ? [= <-]. by rewrite app_nil_r. }
  unfold bind.
  destruct (for_each _ _ _ sp) as [sp1 r1] eqn:H1.
  apply entries_batch in H1 as (new & Hb & Hw & Hi).
  destruct r1 as [items1|e]; intros [= <- <-]; exists new.
  - split_and!; [done| |].
    + eapply Forall_impl; [exact Hw|]. by intros c [? _].
    + intros ? [= <-]. simpl. by apply Hi.
  - split_and!; [done| |done].
    eapply Forall_impl; [exact Hw|]. by intros c [? _].
Qed.

Lemma sections_batch resp source_cat prio sections loc sp sp' r :
  for_each (section_body resp source_cat prio) sections loc sp = (sp', r) →
  ∃ new, fresh_batch sp sp' new ∧ Forall (well_formed prio) new ∧
         ∀ loc', r = Ok loc' → page_items loc' = page_items loc ++ new.
Proof.
  revert loc sp. induction sections as [|section sections IH]; intros loc sp.
  { intros [= <- <-]. exists []. split_and!; [apply fresh_batch_nil|constructor|].
    intros ? [= <-]. by rewrite app_nil_r. }
  simpl. unfold bind at 1.
  destruct (section_body _ _ _ loc section sp) as [sp1 r1] eqn:H1.
  apply section_batch in H1 as (new1 & Hb1 & Hw1 & Hi1).
  destruct r1 as [loc1|e].
  - intros (new2 & Hb2 & Hw2 & Hi2)%IH. exists (new1 ++ new2). split_and!.
    + by eapply fresh_batch_app.
    + by apply Forall_app.
    + intros loc' ->%Hi2. rewrite (Hi1 loc1 eq_refl). by rewrite app_assoc.
  - intros [= <- <-]. exists new1. done.
Qed.

(** the candidates of a page: fresh, distinct, well formed *)
Lemma collect_batch resp sp sp' r :
  collect resp sp = (sp', r) →
  ∃ new, fresh_batch sp sp' new ∧
         Forall (well_formed
                   (priority_of (CAT_PRIORITY sp) (source_cat_of (url resp)))) new ∧
         ∀ items, r = Ok items → items = new.
Proof.
  unfold collect, bind, get_CAT_PRIORITY.
  destruct (for_each _ _ _ sp) as [sp1 r1] eqn:H1.
  apply sections_batch in H1 as (new & Hb & Hw & Hi).
  destruct r1 as [loc1|e]; intros [= <- <-]; exists new; split_and!; try done.
  intros ? [= <-]. by apply Hi.
Qed.

Lemma collect_ids_NoDup resp sp sp' items :
  collect resp sp = (sp', Ok items) → NoDup (c_id <$> items).
Proof.
  intros (new & (_ & _ & Hnd & _) & _ & Hi)%collect_batch.
  by rewrite (Hi items eq_refl).
Qed.

Lemma parse_collect resp sp :
  parse resp sp =
    match collect resp sp with
    | (sp', Ok items) => (sp', Ok (c_paper <$> rank_items items))
    | (sp', Raise e) => (sp', Raise e)
    end.
Proof. unfold parse, bind. by destruct (collect resp sp) as [? []]. Qed.

(** what a page adds to the output: the papers of a fresh batch of
    candidates, in ranked order *)
Lemma parse_batch resp sp sp' r :
  parse resp sp = (sp', r) →
  ∃ new, fresh_batch sp sp' new ∧
         Forall (well_formed
                   (priority_of (CAT_PRIORITY sp) (source_cat_of (url resp)))) new ∧
         match r with Ok ps => ps | Raise _ => [] end = c_paper <$> new.
Proof.
  rewrite parse_collect.
  destruct (collect resp sp) as [sp1 r1] eqn:H1.
  apply collect_batch in H1 as (new & Hb & Hw & Hi).
  destruct r1 as [items|e]; intros [= <- <-].
  - rewrite (Hi items eq_refl). exists (rank_items new). split_and!; [| |done].
    + destruct Hb as (? & ? & Hnd & Hc). unfold fresh_batch. split_and!; [done..| |].
      * by rewrite rank_items_perm.
      * intros c Hin. rewrite rank_items_perm in Hin. by apply Hc.
    + by rewrite rank_items_perm.
  - exists []. split_and!; [|constructor|done].
    destruct Hb as (? & ? & _ & _). unfold fresh_batch. split_and!; [done..|constructor|].
    by intros c ?%elem_of_nil.
Qed.

Lemma run_batch pages sp sp' out :
  run pages sp = (sp', out) →
  ∃ new, fresh_batch sp sp' new ∧ out = c_paper <$> new ∧
         Forall (λ c, ∃ prio, well_formed prio c) new.
Proof.
  revert sp sp' out. induction pages as [|resp pages IH]; intros sp sp' out; simpl.
  { intros [= <- <-]. exists []. split_and!; [apply fresh_batch_nil|done|constructor]. }
  destruct (parse resp sp) as [sp1 r] eqn:H1.
  destruct (run pages sp1) as [sp2 out2] eqn:H2.
  intros [= <- <-].
  apply parse_batch in H1 as (new1 & Hb1 & Hw1 & ->).
  apply IH in H2 as (new2 & Hb2 & -> & Hw2).
  exists (new1 ++ new2). split_and!.
  - by eapply fresh_batch_app.
  - by rewrite fmap_app.
  - apply Forall_app. split; [|done].
    eapply Forall_impl; [exact Hw1|]. eauto.
Qed.

(** ** Deduplication *)

(** C2.  [init] creates [seen_ids] empty.  In a run, whatever the
    pages and whatever the set of seen identifiers it starts from, no
    identifier is carried by two emitted records, and none was seen
    before the run.  At an entry whose identifier is extracted: if it
    is in [seen_ids] the entry is skipped, the spider and [page_items]
    unchanged; if not, it is added to [seen_ids] and one record bearing
    it is appended. *)
Theorem idempotent_dedup :
  (∀ env, seen_ids (init env) = ∅) ∧
  (∀ pages sp,
     NoDup (id <$> (run pages sp).2) ∧
     ∀ p, p ∈ (run pages sp).2 → id p ∉ seen_ids sp) ∧
  (∀ resp source_cat prio rank items paper_dt paper_dd sp href abs_url arxiv_id,
     abs_href_of paper_dt = Some href →
     urljoin resp href = Ok abs_url →
     Re.search_abs_id abs_url = Some arxiv_id →
     (arxiv_id ∈ seen_ids sp →
      entry_body resp source_cat prio rank items (paper_dt, paper_dd) sp
        = (sp, Ok items)) ∧
     (arxiv_id ∉ seen_ids sp →
      ∃ sp' c,
        entry_body resp source_cat prio rank items (paper_dt, paper_dd) sp
          = (sp', Ok (items ++ [c])) ∧
        c_id c = arxiv_id ∧
        seen_ids sp' = {[arxiv_id]} ∪ seen_ids sp)).
Proof.
  split_and!.
  - done.
  - intros pages sp. destruct (run pages sp) as [sp' out] eqn:Hrun. simpl.
    apply run_batch in Hrun as (new & (_ & _ & Hnd & Hc) & -> & _).
    rewrite <- list_fmap_compose. split; [done|].
    intros p (c & -> & Hin)%list_elem_of_fmap. by apply Hc.
  - intros resp source_cat prio rank items paper_dt paper_dd sp href abs_url
      arxiv_id Hh Hu Hs. split.
    + intros Hin. by eapply entry_seen.
    + intros Hin. pose proof (abs_href_of_truthy _ _ Hh) as Ht.
      rewrite (entry_new _ _ _ _ _ _ _ _ _ _ _ Hh Ht Hu Hs Hin).
      eexists _, _. split_and!; reflexivity.
Qed.

(** ** Strings *)

#[local] Arguments String.append !_ _ / : simpl nomatch.

Lemma str_app_nil_r (s : string) : s +:+ "" = s.
Proof. induction s; simpl; congruence. Qed.

Lemma str_app_assoc (a b c : string) : (a +:+ b) +:+ c = a +:+ b +:+ c.
Proof. induction a; simpl; congruence. Qed.

Lemma str_length_app (a b : string) :
  String.length (a +:+ b) = (String.length a + String.length b)%nat.
Proof. induction a; simpl; congruence. Qed.

Lemma strip_prefix_Some (p s r : string) :
  Str.strip_prefix p s = Some r ↔ s = p +:+ r.
Proof.
  revert s. induction p as [|a p IH]; intros s; simpl.
  { split; congruence. }
  destruct s as [|b s]; [done|].
  destruct (Ascii.eqb_spec a b) as [->|Hne].
  - rewrite IH. split; congruence.
  - split; congruence.
Qed.

Lemma strip_prefix_app (p r : string) : Str.strip_prefix p (p +:+ r) = Some r.
Proof. by apply strip_prefix_Some. Qed.

Lemma starts_with_true (p s : string) :
  Str.starts_with p s = true ↔ ∃ r, s = p +:+ r.
Proof.
  unfold Str.starts_with.
  destruct (Str.strip_prefix p s) as [r|] eqn:E.
  - apply strip_prefix_Some in E. naive_solver.
  - split; [done|]. intros [r ->]. by rewrite strip_prefix_app in E.
Qed.

Lemma contains_occurs (needle s : string) :
  Str.contains needle s = true ↔ occurs needle s.
Proof.
  unfold occurs. induction s as [|c s IH].
  - simpl. rewrite orb_false_r, starts_with_true. split.
    + intros [r ->]. by exists "", r.
    + intros ([|??] & b & H); [|done]. eauto.
  - cbn [Str.contains]. rewrite orb_true_iff, starts_with_true, IH. split.
    + intros [[r ->]|(a & b & ->)]; [by exists "", r|by exists (String c a), b].
    + intros ([|c' a] & b & H); simpl in H; [left; eauto|].
      injection H as -> ->. right. eauto.
Qed.

Lemma split_at_Some (n : nat) (s a b : string) :
  Str.split_at n s = Some (a, b) ↔ s = a +:+ b ∧ String.length a = n.
Proof.
  revert s a b. induction n as [|n IH]; intros s a b; simpl.
  - split.
    + by intros [= <- <-].
    + intros [-> Hl]. by destruct a.
  - destruct s as [|c s].
    + split; [done|]. intros [H Hl]. by destruct a.
    + split.
      * destruct (Str.split_at n s) as [[a' b']|] eqn:E; [|done].
        apply IH in E as [-> El]. intros [= <- <-]. simpl. by rewrite El.
      * intros [H Hl]. destruct a as [|c' a]; [done|].
        simpl in H, Hl. injection H as -> H. injection Hl as Hl.
        assert (Str.split_at n s = Some (a, b)) as -> by (by apply IH).
        done.
Qed.

Lemma all_app (p : ascii → bool) (a b : string) :
  Str.all p (a +:+ b) = Str.all p a && Str.all p b.
Proof. induction a; simpl; [done|]. by rewrite IHa, andb_assoc. Qed.

(** ** The identifier pattern *)

Lemma is_arxiv_id_format (d : string) :
  Re.is_arxiv_id d = true ↔ id_format d.
Proof.
  unfold Re.is_arxiv_id, id_format. split.
  - destruct (Str.split_at 4 d) as [[y [|dot n]]|] eqn:E; [done| |done].
    apply split_at_Some in E as [-> Hy].
    rewrite !andb_true_iff. intros [[[Hdy Hdot] Hn] Hdn].
    apply Ascii.eqb_eq in Hdot as ->. apply Nat.eqb_eq in Hn.
    by exists y, n.
  - intros (y & n & -> & Hy & Hn & Hdy & Hdn).
    assert (Str.split_at 4 (y +:+ "." +:+ n) = Some (y, "." +:+ n)) as ->
      by (by apply split_at_Some).
    simpl. by rewrite Hdy, Hdn, Hn.
Qed.

Lemma is_arxiv_id_length (d : string) :
  Re.is_arxiv_id d = true → String.length d = 10%nat.
Proof.
  intros (y & n & -> & Hy & Hn & _)%is_arxiv_id_format.
  rewrite !str_length_app, Hy, Hn. done.
Qed.

Lemma abs_id_at_Some (s d : string) :
  Re.abs_id_at s = Some d ↔
  Re.is_arxiv_id d = true ∧ ∃ r, s = "/abs/" +:+ d +:+ r.
Proof.
  unfold Re.abs_id_at. split.
  - destruct (Str.strip_prefix "/abs/" s) as [r|] eqn:E; [|done].
    apply strip_prefix_Some in E as ->.
    destruct (Str.split_at 10 r) as [[d' r']|] eqn:E; [|done].
    apply split_at_Some in E as [-> _].
    destruct (Re.is_arxiv_id d') eqn:Hd; [|done].
    intros [= <-]. eauto.
  - intros [Hd [r ->]]. rewrite strip_prefix_app.
    assert (Str.split_at 10 (d +:+ r) = Some (d, r)) as ->.
    { apply split_at_Some. eauto using is_arxiv_id_length. }
    by rewrite Hd.
Qed.

Lemma search_abs_id_Some (s d : string) :
  Re.search_abs_id s = Some d →
  Re.is_arxiv_id d = true ∧ occurs ("/abs/" +:+ d) s.
Proof.
  unfold occurs. induction s as [|c s IH]; cbn [Re.search_abs_id].
  - destruct (Re.abs_id_at "") eqn:E; [|done].
    intros [= ->]. apply abs_id_at_Some in E as [? [r Hr]]. done.
  - destruct (Re.abs_id_at (String c s)) as [d'|] eqn:E.
    + intros [= ->]. apply abs_id_at_Some in E as [? [r ->]].
      split; [done|]. by exists "", r.
    + intros [? (a & b & ->)]%IH. split; [done|]. by exists (String c a), b.
Qed.

Lemma search_abs_id_complete (s : string) :
  has_abs_id s → is_Some (Re.search_abs_id s).
Proof.
  intros (d & Hd%is_arxiv_id_format & a & b & ->).
  induction a as [|c a IH].
  - assert (Re.abs_id_at ("" +:+ ("/abs/" +:+ d) +:+ b) = Some d) as E.
    { apply abs_id_at_Some. split; [done|]. by exists b. }
    destruct d; [done|]. simpl in *. by rewrite E.
  - cbn [String.append Re.search_abs_id].
    by destruct (Re.abs_id_at _).
Qed.

(** C6.  The identifier of every record emitted in a run is four
    digits, a dot and five digits, and nothing else; and an entry whose
    absolute URL does not contain "/abs/" followed by such an identifier
    appends no record. *)
Theorem identifier_format :
  (∀ pages sp p, p ∈ (run pages sp).2 → id_format (id p)) ∧
  (∀ resp source_cat prio rank items paper_dt paper_dd sp href abs_url,
     abs_href_of paper_dt = Some href →
     urljoin resp href = Ok abs_url →
     ¬ has_abs_id abs_url →
     entry_body resp source_cat prio rank items (paper_dt, paper_dd) sp
       = (sp, Ok items)).
Proof.
  split.
  - intros pages sp p. destruct (run pages sp) as [sp' out] eqn:Hrun. simpl.
    apply run_batch in Hrun as (new & _ & -> & Hw).
    intros (c & -> & Hin)%list_elem_of_fmap.
    rewrite Forall_forall in Hw. destruct (Hw c Hin) as (prio & Hs & _).
    apply search_abs_id_Some in Hs as [Hs _]. by apply is_arxiv_id_format.
  - intros resp source_cat prio rank items paper_dt paper_dd sp href abs_url
      Hh Hu Hno.
    eapply entry_no_id; [done..|].
    destruct (Re.search_abs_id abs_url) as [d|] eqn:Hs; [|done].
    destruct Hno. apply search_abs_id_Some in Hs as [Hd Ho].
    exists d. split; [by apply is_arxiv_id_format|done].
Qed.

(** ** Entries that are dropped *)

Lemma css_href_None (accepts : anchor → bool) (paper_dt : dt_elem) :
  Forall (λ a, accepts a = false) (dt_anchors paper_dt) →
  css_href accepts paper_dt = None.
Proof.
  unfold css_href. induction 1 as [|a l Ha _ IH]; simpl; [done|].
  by rewrite Ha.
Qed.

(** C8.  An entry none of whose anchors is accepted by either matcher
    of the abstract link, and an entry whose absolute URL the
    identifier pattern does not match, return normally with
    [page_items] and the spider, [seen_ids] included, as they were. *)
Theorem malformed_entry_dropped
    resp source_cat prio rank items paper_dt paper_dd sp :
  (Forall (λ a, titled_abstract a = false ∧ href_has_abs a = false)
          (dt_anchors paper_dt) →
   entry_body resp source_cat prio rank items (paper_dt, paper_dd) sp
     = (sp, Ok items)) ∧
  (∀ href abs_url,
     abs_href_of paper_dt = Some href →
     urljoin resp href = Ok abs_url →
     Re.search_abs_id abs_url = None →
     entry_body resp source_cat prio rank items (paper_dt, paper_dd) sp
       = (sp, Ok items)).
Proof.
  split.
  - intros Hno. apply entry_no_link. unfold abs_href_of.
    rewrite (css_href_None titled_abstract), (css_href_None href_has_abs); [done|..];
      (eapply Forall_impl; [exact Hno|]); by intros a [? ?].
  - intros href abs_url Hh Hu Hs. by eapply entry_no_id.
Qed.

(** ** The warning on empty subject text *)


(** ** Category priorities *)

Lemma span_spec (p : ascii → bool) (s a b : string) :
  Str.span p s = (a, b) →
  s = a +:+ b ∧ Str.all p a = true ∧
  match b with String c _ => p c = false | EmptyString => True end.
Proof.
  revert a b. induction s as [|c s IH]; intros a b; simpl.
  { by intros [= <- <-]. }
  destruct (p c) eqn:Hc.
  - destruct (Str.span p s) as [a' b'] eqn:E. intros [= <- <-].
    destruct (IH _ _ eq_refl) as (-> & Ha & Hb). simpl. by rewrite Hc, Ha.
  - by intros [= <- <-].
Qed.

Lemma span_app (p : ascii → bool) (g : string) (c : ascii) (r : string) :
  Str.all p g = true → p c = false →
  Str.span p (g +:+ String c r) = (g, String c r).
Proof.
  intros Hg Hc. induction g as [|x g IH]; simpl in *.
  - by rewrite Hc.
  - apply andb_true_iff in Hg as [-> Hg]. by rewrite IH.
Qed.

Lemma list_new_at_app (g b : string) :
  g ≠ "" → Str.all Re.not_slash g = true →
  Re.list_new_at (("/list/" +:+ g +:+ "/new") +:+ b) = Some g.
Proof.
  intros Hne Hg. unfold Re.list_new_at.
  rewrite !str_app_assoc, strip_prefix_app.
  change ("/new" +:+ b) with (String "/" ("new" +:+ b)).
  rewrite span_app by done.
  destruct g; [done|]. done.
Qed.

Lemma search_list_new_cons (c : ascii) (s : string) :
  Re.search_list_new (String c s) =
    match Re.list_new_at (String c s) with
    | Some g => Some g
    | None => Re.search_list_new s
    end.
Proof. done. Qed.

Lemma search_list_new_complete (u : string) :
  matches_list_new u → is_Some (Re.search_list_new u).
Proof.
  intros (g & Hne & Hg & a & b & ->).
  induction a as [|c a IH].
  - change ("" +:+ ?x) with x.
    pose proof (list_new_at_app g b Hne Hg) as E.
    destruct (("/list/" +:+ g +:+ "/new") +:+ b) eqn:Hs; [done|].
    by rewrite search_list_new_cons, E.
  - cbn [String.append]. rewrite search_list_new_cons.
    by destruct (Re.list_new_at _).
Qed.

Lemma list_new_at_Some (s g : string) :
  Re.list_new_at s = Some g →
  g ≠ "" ∧ Str.all Re.not_slash g = true ∧
  ∃ b, s = ("/list/" +:+ g +:+ "/new") +:+ b.
Proof.
  unfold Re.list_new_at.
  destruct (Str.strip_prefix "/list/" s) as [r|] eqn:Hp; [|done].
  apply strip_prefix_Some in Hp as ->.
  destruct (Str.span Re.not_slash r) as [g' r'] eqn:Hsp.
  apply span_spec in Hsp as (-> & Hg & _).
  destruct (Str.truthy g') eqn:Hg'; [|done].
  destruct (Str.starts_with "/new" r') eqn:Hn; [|done].
  intros [= ->]. apply starts_with_true in Hn as [b ->].
  split_and!; [by destruct g|done|].
  exists b. by rewrite !str_app_assoc.
Qed.

Lemma search_list_new_Some (u g : string) :
  Re.search_list_new u = Some g → matches_list_new u.
Proof.
  unfold matches_list_new, occurs.
  induction u as [|c u IH]; [done|].
  rewrite search_list_new_cons.
  destruct (Re.list_new_at (String c u)) as [g'|] eqn:E.
  - intros _. apply list_new_at_Some in E as (? & ? & b & ->).
    exists g'. split_and!; [done..|]. by exists "", b.
  - intros (g' & ? & ? & a & b & ->)%IH.
    exists g'. split_and!; [done..|]. by exists (String c a), b.
Qed.

(** C5.  Whatever [CATEGORIES] holds, the spider gives math.QA
    priority 0 and math.RT priority 1, and every other token 99; a page
    URL that does not match [/list/([^/]+)/new] has the empty source
    category, which gets 99. *)
Theorem category_priority (env : option string) :
  let d := CAT_PRIORITY (init env) in
  priority_of d "math.QA" = 0 ∧
  priority_of d "math.RT" = 1 ∧
  (∀ c, c ≠ "math.QA" → c ≠ "math.RT" → priority_of d c = 99) ∧
  (∀ page_url, ¬ matches_list_new page_url →
     source_cat_of page_url = "" ∧
     priority_of d (source_cat_of page_url) = 99).
Proof.
  simpl. unfold priority_of. split_and!.
  - done.
  - done.
  - intros c Hqa Hrt. by rewrite lookup_insert_ne, lookup_singleton_ne.
  - intros page_url Hno.
    assert (source_cat_of page_url = "") as ->; [|done].
    unfold source_cat_of.
    destruct (Re.search_list_new page_url) as [g|] eqn:Hs; [|done].
    destruct Hno. by eapply search_list_new_Some.
Qed.

(** ** Section headings *)

Lemma blocks_keep_rank resp source_cat prio blocks loc sp sp' loc' :
  Forall (λ e, Str.lower (tag e) ≠ "h3") blocks →
  for_each (section_body resp source_cat prio) blocks loc sp = (sp', Ok loc') →
  current_section_rank loc' = current_section_rank loc ∧
  ∃ new, page_items loc' = page_items loc ++ new ∧
         Forall (λ c, section_rank c = current_section_rank loc) new.
Proof.
  intros Hblocks. revert loc sp.
  induction Hblocks as [|block blocks Hb _ IH]; intros loc sp.
  { intros [= <- <-]. split; [done|]. exists []. by rewrite app_nil_r. }
  simpl. unfold bind at 1.
  destruct (section_body _ _ _ loc block sp) as [sp1 [loc1|e]] eqn:H1; [|done].
  intros (Hr & new2 & Hi2 & Hw2)%IH.
  assert (current_section_rank loc1 = current_section_rank loc ∧
          ∃ new1, page_items loc1 = page_items loc ++ new1 ∧
                  Forall (λ c, section_rank c = current_section_rank loc) new1)
    as (Hr1 & new1 & Hi1 & Hw1).
  { unfold section_body in H1. rewrite bool_decide_eq_false_2 in H1 by done.
    case_bool_decide.
    { injection H1 as <- <-. split; [done|]. exists []. by rewrite app_nil_r. }
    unfold bind in H1.
    destruct (for_each _ _ _ sp) as [sp0 [items0|e]] eqn:H0; [|done].
    injection H1 as <- <-. simpl. split; [done|].
    apply entries_batch in H0 as (new & _ & Hw & Hi).
    exists new. split; [by apply Hi|].
    eapply Forall_impl; [exact Hw|]. by intros c [_ ?]. }
  split; [congruence|]. exists (new1 ++ new2). split.
  - by rewrite Hi2, Hi1, app_assoc.
  - apply Forall_app. split; [done|]. by rewrite <- Hr1.
Qed.

(** C4, as the code has it.  A heading sets the current section rank
    to the rank [r] of its text, and the records of every list block
    after it, up to the next heading, carry [r].  [r] is CROSS (1)
    exactly when the lower-cased text contains "cross submission" and
    not "new submission"; for the text "Cross-lists for Mon, 3 Jun 24"
    it is OTHER (3). *)
Theorem heading_sets_rank
    resp source_cat prio heading blocks loc sp sp' loc' :
  Str.lower (tag heading) = "h3" →
  Forall (λ e, Str.lower (tag e) ≠ "h3") blocks →
  for_each (section_body resp source_cat prio) (heading :: blocks) loc sp
    = (sp', Ok loc') →
  let r := heading_rank (heading_of heading) in
  current_section_rank loc' = r ∧
  (∃ new, page_items loc' = page_items loc ++ new ∧
          Forall (λ c, section_rank c = r) new) ∧
  (r = 1 ↔ Str.contains "new submission" (heading_of heading) = false ∧
           Str.contains "cross submission" (heading_of heading) = true) ∧
  (texts heading = ["Cross-lists for Mon, 3 Jun 24"] → r = 3).
Proof.
  intros Htag Hblocks. simpl. unfold bind at 1, section_body at 1.
  rewrite bool_decide_eq_true_2 by done. unfold ret at 1.
  intros (Hr & new & Hi & Hw)%blocks_keep_rank; [|done]. simpl in *.
  split_and!; [done|by exists new| |].
  - unfold heading_rank.
    destruct (Str.contains "new submission" (heading_of heading)),
             (Str.contains "cross submission" (heading_of heading)),
             (Str.contains "replacement" (heading_of heading));
      (split; [intros ?; split; (done || lia) | intros [? ?]; (done || lia)]).
  - unfold heading_of. by intros ->.
Qed.

Lemma cross_lists_rank_other :
  heading_rank (heading_of (h3 "Cross-lists for Mon, 3 Jun 24")) ≠ 1 ∧
  section_rank <$> candidates_of cross_lists_page (init None) = [3].
Proof. split; [done|]. by vm_compute. Qed.

(** ** [str.replace] *)

Lemma replace_from_skip (old new a s : string) :
  Str.replace_from (String.length a) old new (a +:+ s)
  = Str.replace old new s.
Proof. induction a as [|c a IH]; simpl; [done|]. by destruct s; simpl in *. Qed.

Lemma replace_hit (c : ascii) (old' new r : string) :
  Str.replace (String c old') new (String c old' +:+ r)
  = new +:+ Str.replace (String c old') new r.
Proof.
  unfold Str.replace at 1. cbn [String.append Str.replace_from].
  assert (Str.starts_with (String c old') (String c (old' +:+ r)) = true) as ->.
  { apply starts_with_true. by exists r. }
  cbn [String.length Nat.pred]. by rewrite replace_from_skip.
Qed.

Lemma replace_miss (old new : string) (c : ascii) (s : string) :
  Str.starts_with old (String c s) = false →
  Str.replace old new (String c s) = String c (Str.replace old new s).
Proof. unfold Str.replace. cbn [Str.replace_from]. by intros ->. Qed.

Lemma occurrences_suffix (needle a s : string) :
  (occurrences needle s ≤ occurrences needle (a +:+ s))%nat.
Proof.
  induction a as [|c a IH]; [done|].
  cbn [String.append occurrences]. lia.
Qed.

Lemma replace_absent (c : ascii) (old' new s : string) :
  occurrences (String c old') s = 0%nat →
  Str.replace (String c old') new s = s.
Proof.
  induction s as [|x s IH]; [done|].
  cbn [occurrences].
  destruct (Str.starts_with (String c old') (String x s)) eqn:E; [lia|].
  intros H. rewrite replace_miss by done. by rewrite IH by lia.
Qed.

Lemma replace_first_hit (old new r : string) :
  Str.replace_first old new (old +:+ r) = new +:+ r.
Proof.
  destruct (old +:+ r) eqn:E; simpl;
    pose proof (strip_prefix_app old r) as H; rewrite E in H; by rewrite H.
Qed.

Lemma replace_first_miss (old new : string) (c : ascii) (s : string) :
  Str.starts_with old (String c s) = false →
  Str.replace_first old new (String c s)
  = String c (Str.replace_first old new s).
Proof.
  unfold Str.starts_with. cbn [Str.replace_first].
  by destruct (Str.strip_prefix old (String c s)).
Qed.

(** with at most one occurrence, replacing all is replacing the first *)
Lemma replace_once (c : ascii) (old' new s : string) :
  (occurrences (String c old') s ≤ 1)%nat →
  Str.replace (String c old') new s = Str.replace_first (String c old') new s.
Proof.
  induction s as [|x s IH]; [done|].
  cbn [occurrences].
  destruct (Str.starts_with (String c old') (String x s)) eqn:E.
  - apply starts_with_true in E as [r E]. intros H.
    rewrite E, replace_hit, replace_first_hit. f_equal.
    apply replace_absent.
    cbn [String.append] in E. injection E as -> ->.
    pose proof (occurrences_suffix (String c old') old' r). lia.
  - intros H. rewrite replace_miss, replace_first_miss by done.
    by rewrite IH by lia.
Qed.

(** C3, as the code has it.  In every record emitted in a run, [pdf]
    is [abs] with every occurrence of "/abs/", taken left to right
    without overlap, replaced by "/pdf/", and the rest as it was; "/abs/"
    occurs in [abs]; and when it occurs there once, [pdf] is [abs] with
    the first occurrence replaced. *)
Theorem pdf_derivation (pages : list response) (sp : spider) (p : paper) :
  p ∈ (run pages sp).2 →
  pdf p = Str.replace "/abs/" "/pdf/" (abs p) ∧
  occurs "/abs/" (abs p) ∧
  (occurrences "/abs/" (abs p) = 1%nat →
   pdf p = Str.replace_first "/abs/" "/pdf/" (abs p)).
Proof.
  destruct (run pages sp) as [sp' out] eqn:Hrun. simpl.
  apply run_batch in Hrun as (new & _ & -> & Hw).
  intros (c & -> & Hin)%list_elem_of_fmap.
  rewrite Forall_forall in Hw. destruct (Hw c Hin) as (prio & Hs & Hpdf & _).
  split_and!; [done| |].
  - apply search_abs_id_Some in Hs as [_ (a & b & ->)].
    exists a, (c_id c +:+ b). by rewrite str_app_assoc.
  - intros Hone. rewrite Hpdf. apply replace_once. lia.
Qed.

Lemma pdf_replaces_every_abs :
  ∃ p, p ∈ (run [double_abs_page] (init None)).2 ∧
       pdf p ≠ Str.replace_first "/abs/" "/pdf/" (abs p).
Proof.
  eexists. split.
  - vm_compute. apply list_elem_of_here.
  - by vm_compute.
Qed.

(** ** The identifier pattern is not anchored on the right *)

Lemma is_arxiv_id_chars (d : string) :
  Re.is_arxiv_id d = true →
  ∃ c0 c1 c2 c3 c5 c6 c7 c8 c9,
    d = String c0 (String c1 (String c2 (String c3 (String "."
          (String c5 (String c6 (String c7 (String c8 (String c9 ""))))))))) ∧
    Forall (λ c, Str.is_digit c = true) [c0; c1; c2; c3; c5; c6; c7; c8; c9].
Proof.
  unfold Re.is_arxiv_id.
  destruct d as [|c0 [|c1 [|c2 [|c3 [|c4 [|c5 [|c6 [|c7 [|c8 [|c9 [|c10 d]]]]]]]]]]];
    try done; cbn [Str.split_at Str.all String.length Nat.eqb];
    rewrite ?andb_true_iff, ?andb_false_r; try (intros; intuition congruence).
  intros [[[(? & ? & ? & ? & _) Hdot] _] (? & ? & ? & ? & ? & _)].
  apply Ascii.eqb_eq in Hdot as ->.
  eexists _, _, _, _, _, _, _, _, _. split; [reflexivity|].
  repeat constructor; done.
Qed.

(** a match that starts before a later "/a" ends before it *)
Lemma abs_id_at_app_inv (x z d : string) :
  x ≠ "" →
  Re.abs_id_at (x +:+ String "/" (String "a" z)) = Some d →
  Re.abs_id_at x = Some d.
Proof.
  intros Hx [Hd [r H]]%abs_id_at_Some.
  apply abs_id_at_Some. split; [done|].
  destruct (is_arxiv_id_chars d Hd)
    as (c0 & c1 & c2 & c3 & c5 & c6 & c7 & c8 & c9 & -> & Hc).
  repeat (apply Forall_cons in Hc as [? Hc]).
  cbn [String.append] in H.
  do 15 (destruct x as [|? x]; cbn [String.append] in H;
         [ simplify_eq; done | injection H as -> H ]).
  exists x. done.
Qed.

Lemma search_abs_id_cons (c : ascii) (s : string) :
  Re.search_abs_id (String c s) =
    match Re.abs_id_at (String c s) with
    | Some d => Some d
    | None => Re.search_abs_id s
    end.
Proof. done. Qed.

(** the leftmost "/abs/" followed by an identifier gives the match,
    whatever comes after the ten characters *)
Lemma search_abs_id_leftmost (a d more : string) :
  Re.search_abs_id a = None → Re.is_arxiv_id d = true →
  Re.search_abs_id (a +:+ "/abs/" +:+ d +:+ more) = Some d.
Proof.
  intros Ha Hd.
  assert (Re.abs_id_at ("/abs/" +:+ d +:+ more) = Some d) as E0.
  { apply abs_id_at_Some. eauto. }
  assert (∃ z, "/abs/" +:+ d +:+ more = String "/" (String "a" z)) as [z Hz].
  { by eexists. }
  remember ("/abs/" +:+ d +:+ more) as Z eqn:HZ. clear HZ.
  induction a as [|c a IH].
  - change ("" +:+ Z) with Z. rewrite Hz, search_abs_id_cons, <- Hz. by rewrite E0.
  - rewrite search_abs_id_cons in Ha.
    destruct (Re.abs_id_at (String c a)) as [d'|] eqn:E; [done|].
    change (String c a +:+ Z) with (String c (a +:+ Z)).
    rewrite search_abs_id_cons.
    destruct (Re.abs_id_at (String c (a +:+ Z))) as [d'|] eqn:E'; [|by apply IH].
    change (String c (a +:+ Z)) with (String c a +:+ Z) in E'.
    rewrite Hz in E'. apply abs_id_at_app_inv in E'; [congruence|done].
Qed.

(** C10.  Let the absolute URL of an entry be [a], then "/abs/", four
    digits, a dot and five digits, then anything, further digits
    included, with no match of the pattern inside [a].  The entry is not
    skipped for its URL: unless the ten-character identifier was seen, a
    record is appended whose [id] is those ten characters alone and
    whose [abs] is the whole URL. *)
Theorem id_match_ignores_tail
    resp source_cat prio rank items paper_dt paper_dd sp href a y n more :
  abs_href_of paper_dt = Some href →
  urljoin resp href = Ok (a +:+ "/abs/" +:+ (y +:+ "." +:+ n) +:+ more) →
  Re.search_abs_id a = None →
  String.length y = 4%nat → Str.all Str.is_digit y = true →
  String.length n = 5%nat → Str.all Str.is_digit n = true →
  y +:+ "." +:+ n ∉ seen_ids sp →
  ∃ sp' c,
    entry_body resp source_cat prio rank items (paper_dt, paper_dd) sp
      = (sp', Ok (items ++ [c])) ∧
    c_id c = y +:+ "." +:+ n ∧
    abs (c_paper c) = a +:+ "/abs/" +:+ (y +:+ "." +:+ n) +:+ more.
Proof.
  intros Hh Hu Ha Hy Hdy Hn Hdn Hin.
  pose proof (abs_href_of_truthy _ _ Hh) as Ht.
  assert (Re.is_arxiv_id (y +:+ "." +:+ n) = true) as Hd.
  { apply is_arxiv_id_format. by exists y, n. }
  pose proof (search_abs_id_leftmost a _ more Ha Hd) as Hs.
  rewrite (entry_new _ _ _ _ _ _ _ _ _ _ _ Hh Ht Hu Hs Hin).
  eexists _, _. split_and!; reflexivity.
Qed.

(** ** Subject codes *)

Lemma code_at_Some (s g : string) :
  Re.code_at s = Some g ↔
  code_shape g ∧ ∃ r, s = "(" +:+ g +:+ ")" +:+ r.
Proof.
  unfold code_shape. split.
  - unfold Re.code_at. destruct s as [|open r]; [done|].
    destruct (Str.span Re.lower_or_hyphen r)
      as [p [|dot [|u1 [|u2 [|close rest]]]]] eqn:Hsp; try done.
    apply span_spec in Hsp as (-> & Hp & _).
    destruct (Ascii.eqb_spec open "(") as [->|]; [|done].
    destruct (Str.truthy p) eqn:Htp; [|done].
    destruct (Ascii.eqb_spec dot ".") as [->|]; [|done].
    destruct (Str.is_upper u1) eqn:Hu1; [|done].
    destruct (Str.is_upper u2) eqn:Hu2; [|done].
    destruct (Ascii.eqb_spec close ")") as [->|]; [|done].
    intros [= <-]. split.
    + exists p, u1, u2. split_and!; try done. by destruct p.
    + exists rest. cbn [String.append]. f_equal. by rewrite !str_app_assoc.
  - intros [(p & u1 & u2 & -> & Hne & Hp & Hu1 & Hu2) [r ->]].
    unfold Re.code_at. cbn [String.append].
    rewrite !str_app_assoc. cbn [String.append].
    rewrite span_app by done.
    rewrite Hu1, Hu2. destruct p; [done|]. done.
Qed.

Lemma findall_codes_from_skip (a s : string) :
  Re.findall_codes_from (String.length a) (a +:+ s) = Re.findall_codes s.
Proof. induction a as [|c a IH]; [done|]. by destruct s. Qed.

Lemma findall_codes_hit (g r : string) :
  Re.code_at ("(" +:+ g +:+ ")" +:+ r) = Some g →
  Re.findall_codes ("(" +:+ g +:+ ")" +:+ r) = g :: Re.findall_codes r.
Proof.
  intros E. unfold Re.findall_codes at 1.
  change ("(" +:+ g +:+ ")" +:+ r) with (String "(" (g +:+ ")" +:+ r)) in *.
  cbn [Re.findall_codes_from]. rewrite E. f_equal.
  rewrite <- (findall_codes_from_skip (g +:+ ")") r).
  by rewrite str_length_app, Nat.add_1_r, str_app_assoc.
Qed.

Lemma findall_codes_miss (c : ascii) (s : string) :
  Re.code_at (String c s) = None →
  Re.findall_codes (String c s) = Re.findall_codes s.
Proof. unfold Re.findall_codes. cbn [Re.findall_codes_from]. by intros ->. Qed.

Lemma occurs_cons (needle : string) (c : ascii) (s : string) :
  occurs needle s → occurs needle (String c s).
Proof. intros (a & b & ->). by exists (String c a), b. Qed.

Lemma findall_codes_sound (k : nat) (s c : string) :
  c ∈ Re.findall_codes_from k s →
  code_shape c ∧ occurs ("(" +:+ c +:+ ")") s.
Proof.
  revert k. induction s as [|x s IH]; intros k; cbn [Re.findall_codes_from].
  { by intros ?%elem_of_nil. }
  destruct k as [|k].
  - destruct (Re.code_at (String x s)) as [g|] eqn:E.
    + intros [->|Hin]%elem_of_cons.
      * apply code_at_Some in E as [Hg [r ->]]. split; [done|].
        exists "", r. by rewrite !str_app_assoc.
      * destruct (IH _ Hin). auto using occurs_cons.
    + intros Hin. destruct (IH _ Hin). auto using occurs_cons.
  - intros Hin. destruct (IH _ Hin). auto using occurs_cons.
Qed.

Lemma str_app_eq_app (a b c d : string) :
  a +:+ b = c +:+ d →
  (∃ t, a = c +:+ t ∧ d = t +:+ b) ∨
  (∃ x t, c = a +:+ String x t ∧ b = String x t +:+ d).
Proof.
  revert c. induction a as [|y a IH]; intros c; cbn [String.append].
  - intros ->. destruct c as [|x c]; [left; by exists ""|right; by exists x, c].
  - destruct c as [|x c]; cbn [String.append].
    + intros <-. left. by exists (String y a).
    + intros [= -> H]. destruct (IH _ H) as [(t & -> & ->)|(x' & t & -> & ->)].
      * left. by exists t.
      * right. by exists x', t.
Qed.

Lemma all_app_r (p : ascii → bool) (a b : string) :
  Str.all p (a +:+ b) = true → Str.all p b = true.
Proof. rewrite all_app. by intros [_ ?]%andb_true_iff. Qed.

(** inside a match, after its first character, there is no "(" *)
Lemma code_shape_no_paren (g : string) :
  code_shape g →
  Str.all (λ c, negb (Ascii.eqb c "(")) (g +:+ ")") = true.
Proof.
  intros (p & u1 & u2 & -> & _ & Hp & Hu1 & Hu2).
  rewrite !all_app. cbn [Str.all].
  assert (∀ c, Str.is_upper c = true → negb (Ascii.eqb c "(") = true) as Hup.
  { intros c Hc. destruct (Ascii.eqb_spec c "(") as [->|]; done. }
  rewrite (Hup u1), (Hup u2) by done.
  rewrite !andb_true_r. clear -Hp.
  induction p as [|c p IH]; [done|]. cbn [Str.all] in *.
  apply andb_true_iff in Hp as [Hc Hp]. rewrite IH by done.
  destruct (Ascii.eqb_spec c "(") as [->|]; done.
Qed.

Lemma findall_codes_complete (a b c : string) :
  code_shape c →
  c ∈ Re.findall_codes (a +:+ ("(" +:+ c +:+ ")") +:+ b).
Proof.
  intros Hc.
  assert (Re.findall_codes (("(" +:+ c +:+ ")") +:+ b)
          = c :: Re.findall_codes b) as Hhit.
  { rewrite !str_app_assoc. apply findall_codes_hit, code_at_Some. eauto. }
  assert (∃ z, ("(" +:+ c +:+ ")") +:+ b = String "(" z) as [z Hz].
  { by eexists. }
  remember (("(" +:+ c +:+ ")") +:+ b) as Z eqn:HZ. clear HZ.
  remember (String.length a) as n eqn:Hn. revert a Hn.
  induction n as [n IH] using lt_wf_ind. intros a Hn.
  destruct a as [|x a].
  { change ("" +:+ Z) with Z. rewrite Hhit. apply list_elem_of_here. }
  change (String x a +:+ Z) with (String x (a +:+ Z)).
  destruct (Re.code_at (String x (a +:+ Z))) as [g|] eqn:E.
  - pose proof E as E'. apply code_at_Some in E' as [Hg [r Hr]].
    rewrite Hr in E |- *. rewrite findall_codes_hit by done.
    apply elem_of_cons. right.
    assert (a +:+ Z = (g +:+ ")") +:+ r) as Hr'.
    { rewrite str_app_assoc. change ("(" +:+ ?u) with (String "(" u) in Hr.
      by injection Hr. }
    apply str_app_eq_app in Hr' as [(t & -> & ->)|(y & t & Hm & HZ)].
    + apply (IH (String.length t)); [|done].
      simpl in Hn. rewrite str_length_app in Hn. lia.
    + exfalso. apply code_shape_no_paren in Hg.
      rewrite Hm in Hg. apply all_app_r in Hg.
      rewrite Hz in HZ. cbn [String.append] in HZ. injection HZ as <- _. done.
  - rewrite findall_codes_miss by done.
    apply (IH (String.length a)); [|done]. simpl in Hn. lia.
Qed.

(** C7.  On the subject text of the example the codes found are
    math.RT and math.QA; and on every text, the set of codes found is
    the set of strings of the form lower-case-and-hyphen prefix, dot,
    two upper-case letters that occur in the text between parentheses. *)
Theorem category_extraction :
  (list_to_set
     (Re.findall_codes
        "Representation Theory (math.RT); Quantum Algebra (math.QA)")
   : gset string) = {[ "math.RT"; "math.QA" ]} ∧
  ∀ text c,
    c ∈ (list_to_set (Re.findall_codes text) : gset string) ↔
    code_shape c ∧ occurs ("(" +:+ c +:+ ")") text.
Proof.
  split.
  - by vm_compute.
  - intros text c. rewrite elem_of_list_to_set. split.
    + apply findall_codes_sound.
    + intros [Hc (a & b & ->)]. by apply findall_codes_complete.
Qed.

(** ** The theorems on the sample pages *)

Lemma sort_correct_witness :
  ∃ a b,
    c_id a = "2406.00005" ∧ c_id b = "2406.00003" ∧
    (cat_priority a < cat_priority b → (1 < 2)%nat) ∧
    (cat_priority a = cat_priority b →
     section_rank a < section_rank b → (1 < 2)%nat) ∧
    (cat_priority a = cat_priority b →
     section_rank a = section_rank b →
     1%nat ≠ 2%nat → ((1 < 2)%nat ↔ str_ge (c_id a) (c_id b))).
Proof.
  exists (cand "2406.00005" 0 1), (cand "2406.00003" 0 1).
  split; [reflexivity|]. split; [reflexivity|].
  apply (sort_correct sample_candidates 1 2).
  - apply (bool_decide_unpack _). vm_compute. exact I.
  - vm_compute. reflexivity.
  - vm_compute. reflexivity.
Defined.

Lemma idempotent_dedup_witness :
  NoDup (id <$> (run [sample_page; sample_page] (init None)).2) ∧
  entry_body sample_page "math.QA" 0 0 [] (entry "/abs/2406.00001" [])
             spider_after_sample
    = (spider_after_sample, Ok []) ∧
  ∃ sp' c,
    entry_body sample_page "math.QA" 0 0 [] (entry "/abs/2406.00001" [])
               (init None)
      = (sp', Ok ([] ++ [c])) ∧
    c_id c = "2406.00001" ∧
    seen_ids sp' = {["2406.00001"]} ∪ seen_ids (init None).
Proof.
  split; [apply (proj1 (proj2 idempotent_dedup))|].
  split.
  - apply (proj2 (proj2 idempotent_dedup) sample_page "math.QA" 0 0 []
             (Dt [Anchor (Some "Abstract") (Some "/abs/2406.00001")]) (Dd [])
             spider_after_sample "/abs/2406.00001"
             "https://arxiv.org/abs/2406.00001" "2406.00001");
      [reflexivity..|].
    apply (bool_decide_unpack _). vm_compute. exact I.
  - apply (proj2 (proj2 idempotent_dedup) sample_page "math.QA" 0 0 []
             (Dt [Anchor (Some "Abstract") (Some "/abs/2406.00001")]) (Dd [])
             (init None) "/abs/2406.00001"
             "https://arxiv.org/abs/2406.00001" "2406.00001");
      [reflexivity..|].
    apply (bool_decide_unpack _). vm_compute. exact I.
Defined.

Lemma pdf_derivation_witness :
  let p := Paper "2406.00003" "https://arxiv.org/abs/2406.00003"
                 "https://arxiv.org/pdf/2406.00003" ∅ in
  pdf p = Str.replace "/abs/" "/pdf/" (abs p) ∧
  occurs "/abs/" (abs p) ∧
  (occurrences "/abs/" (abs p) = 1%nat →
   pdf p = Str.replace_first "/abs/" "/pdf/" (abs p)).
Proof.
  apply (pdf_derivation [sample_page] (init None)).
  apply list_elem_of_lookup. exists 3%nat. vm_compute. reflexivity.
Defined.

Lemma heading_sets_rank_witness :
  let heading := h3 "Cross submissions (showing 1 of 1 entries)" in
  let blocks := [dl [entry "/abs/2406.00003" []]] in
  let loc' := Locals [cand "2406.00003" 0 1] 1 in
  let r := heading_rank (heading_of heading) in
  current_section_rank loc' = r ∧
  (∃ new, page_items loc' = [] ++ new ∧
          Forall (λ c, section_rank c = r) new) ∧
  (r = 1 ↔ Str.contains "new submission" (heading_of heading) = false ∧
           Str.contains "cross submission" (heading_of heading) = true) ∧
  (texts heading = ["Cross-lists for Mon, 3 Jun 24"] → r = 3).
Proof.
  apply (heading_sets_rank sample_page "math.QA" 0
           (h3 "Cross submissions (showing 1 of 1 entries)")
           [dl [entry "/abs/2406.00003" []]] (Locals [] 3) (init None)
           (for_each (section_body sample_page "math.QA" 0)
              [h3 "Cross submissions (showing 1 of 1 entries)";
               dl [entry "/abs/2406.00003" []]] (Locals [] 3) (init None)).1).
  - reflexivity.
  - repeat constructor. vm_compute. discriminate.
  - vm_compute. reflexivity.
Defined.

Lemma category_priority_witness :
  let d := CAT_PRIORITY (init (Some "math.RT,math.QA")) in
  priority_of d "math.QA" = 0 ∧ priority_of d "math.RT" = 1 ∧
  priority_of d "cs.CV" = 99 ∧
  source_cat_of "https://arxiv.org/abs/2406.00003" = "" ∧
  priority_of d (source_cat_of "https://arxiv.org/abs/2406.00003") = 99.
Proof.
  destruct (category_priority (Some "math.RT,math.QA")) as (H0 & H1 & H2 & H3).
  split; [exact H0|]. split; [exact H1|].
  split; [apply H2; discriminate|].
  apply H3. intros Hm. apply search_list_new_complete in Hm.
  vm_compute in Hm. destruct Hm as [g Hg]. discriminate Hg.
Defined.

Lemma identifier_format_witness :
  id_format "2406.00003" ∧
  entry_body sample_page "math.QA" 0 0 [] (entry "/abs/math/0601001" [])
             (init None)
    = (init None, Ok []).
Proof.
  split.
  - apply (proj1 identifier_format [sample_page] (init None)
             (Paper "2406.00003" "https://arxiv.org/abs/2406.00003"
                    "https://arxiv.org/pdf/2406.00003" ∅)).
    apply list_elem_of_lookup. exists 3%nat. vm_compute. reflexivity.
  - apply (proj2 identifier_format sample_page "math.QA" 0 0 []
             (Dt [Anchor (Some "Abstract") (Some "/abs/math/0601001")]) (Dd [])
             (init None) "/abs/math/0601001"
             "https://arxiv.org/abs/math/0601001");
      [reflexivity..|].
    intros Hm. apply search_abs_id_complete in Hm.
    vm_compute in Hm. destruct Hm as [d Hd]. discriminate Hd.
Defined.

Lemma category_extraction_witness :
  "math.QA" ∈ (list_to_set
                 (Re.findall_codes "Quantum Algebra (math.QA)") : gset string).
Proof.
  apply (proj2 category_extraction "Quantum Algebra (math.QA)" "math.QA").
  split.
  - exists "math", "Q"%char, "A"%char. repeat split; discriminate.
  - by exists "Quantum Algebra ", "".
Defined.

Lemma malformed_entry_dropped_witness :
  entry_body sample_page "math.QA" 0 0 []
             (Dt [Anchor (Some "Download PDF") (Some "/pdf/2406.00003")], Dd [])
             (init None)
    = (init None, Ok []) ∧
  entry_body sample_page "math.QA" 0 0 [] (entry "/abs/math/0601001" [])
             (init None)
    = (init None, Ok []).
Proof.
  split.
  - apply (proj1 (malformed_entry_dropped sample_page "math.QA" 0 0 []
                    (Dt [Anchor (Some "Download PDF") (Some "/pdf/2406.00003")])
                    (Dd []) (init None))).
    repeat constructor.
  - apply (proj2 (malformed_entry_dropped sample_page "math.QA" 0 0 []
                    (Dt [Anchor (Some "Abstract") (Some "/abs/math/0601001")])
                    (Dd []) (init None))
             "/abs/math/0601001" "https://arxiv.org/abs/math/0601001");
      reflexivity.
Defined.


Lemma id_match_ignores_tail_witness :
  ∃ sp' c,
    entry_body sample_page "math.QA" 0 0 [] (entry "/abs/1234.123456" [])
               (init None)
      = (sp', Ok ([] ++ [c])) ∧
    c_id c = "1234.12345" ∧
    abs (c_paper c) = "https://arxiv.org/abs/1234.123456".
Proof.
  apply (id_match_ignores_tail sample_page "math.QA" 0 0 []
           (Dt [Anchor (Some "Abstract") (Some "/abs/1234.123456")]) (Dd [])
           (init None) "/abs/1234.123456" "https://arxiv.org"
           "1234" "12345" "6"); [reflexivity..|].
  apply (bool_decide_unpack _). vm_compute. exact I.
Defined.

(** * More on the spider *)

(** ** The trace of a page *)

Lemma effect_nil (sp : spider) : effect sp sp [].
Proof.
  unfold effect. split_and!; [done..| |].
  - simpl. by rewrite (left_id_L ∅ (∪)).
  - exists []. by rewrite app_nil_r.
Qed.

Lemma effect_app (sp1 sp2 sp3 : spider) (new1 new2 : list candidate) :
  effect sp1 sp2 new1 → effect sp2 sp3 new2 → effect sp1 sp3 (new1 ++ new2).
Proof.
  intros (Hp1 & Ht1 & Hu1 & Hs1 & lines1 & Hw1 & Hl1)
         (Hp2 & Ht2 & Hu2 & Hs2 & lines2 & Hw2 & Hl2).
  unfold effect. split_and!; [congruence..| |].
  - rewrite Hs2, Hs1, fmap_app, list_to_set_app_L.
    generalize (list_to_set (c_id <$> new1) : gset string)
               (list_to_set (c_id <$> new2) : gset string) (seen_ids sp1).
    clear. intros X Y Z. by rewrite (comm_L (∪) X Y), (assoc_L (∪)).
  - exists (lines1 ++ lines2). split.
    + by rewrite Hw2, Hw1, app_assoc.
    + rewrite !length_app. lia.
Qed.

Lemma entry_trace resp source_cat prio rank items entry sp sp' r :
  entry_body resp source_cat prio rank items entry sp = (sp', r) →
  ∃ new, effect sp sp' new ∧ (length new ≤ 1)%nat ∧
         Forall (made_by resp prio rank entry) new ∧
         ∀ items', r = Ok items' → items' = items ++ new.
Proof.
  destruct entry as [paper_dt paper_dd]. intros Hbody.
  destruct (entry_cases resp source_cat prio rank items paper_dt paper_dd sp)
    as [H|[[e H]|(href & abs_url & arxiv_id & Hh & Ht & Hu & Hs & Hin)]].
  - rewrite H in Hbody. injection Hbody as <- <-. exists [].
    split_and!; [apply effect_nil|simpl; lia|constructor|].
    intros ? [= <-]. by rewrite app_nil_r.
  - rewrite H in Hbody. injection Hbody as <- <-. exists [].
    split_and!; [apply effect_nil|simpl; lia|constructor|done].
  - rewrite (entry_new _ _ _ _ _ _ _ _ _ _ _ Hh Ht Hu Hs Hin) in Hbody.
    injection Hbody as <- <-. eexists [_]. split_and!; cycle 3.
    + by intros ? [= <-].
    + unfold effect; simpl. split_and!; [done..| |].
      { unfold c_id; simpl. by rewrite (right_id_L ∅ (∪)). }
      destruct (Str.truthy (subjects_text_of paper_dd)).
      * exists []. split; [by rewrite app_nil_r|simpl; lia].
      * eexists [_]. split; [done|simpl; lia].
    + simpl; lia.
    + repeat constructor. by exists href, abs_url, arxiv_id.
Qed.

Lemma entries_trace resp source_cat prio rank entries items sp sp' r :
  for_each (entry_body resp source_cat prio rank) entries items sp = (sp', r) →
  ∃ new, effect sp sp' new ∧ (length new ≤ length entries)%nat ∧
         Forall (λ c, ∃ entry, entry ∈ entries ∧
                               made_by resp prio rank entry c) new ∧
         ∀ items', r = Ok items' → items' = items ++ new.
Proof.
  revert items sp. induction entries as [|entry entries IH]; intros items sp.
  { intros [= <- <-]. exists [].
    split_and!; [apply effect_nil|done|constructor|].
    intros ? [= <-]. by rewrite app_nil_r. }
  simpl. unfold bind at 1.
  destruct (entry_body _ _ _ _ items entry sp) as [sp1 r1] eqn:H1.
  apply entry_trace in H1 as (new1 & He1 & Hl1 & Hm1 & Hi1).
  assert (Forall (λ c, ∃ entry0, entry0 ∈ entry :: entries ∧
                                 made_by resp prio rank entry0 c) new1) as Hm1'.
  { eapply Forall_impl; [exact Hm1|]. intros c ?. exists entry.
    split; [apply list_elem_of_here|done]. }
  destruct r1 as [items1|e].
  - intros (new2 & He2 & Hl2 & Hm2 & Hi2)%IH. exists (new1 ++ new2). split_and!.
    + by eapply effect_app.
    + rewrite length_app. lia.
    + apply Forall_app. split; [done|].
      eapply Forall_impl; [exact Hm2|]. intros c (entry0 & ? & ?).
      exists entry0. split; [by apply list_elem_of_further|done].
    + intros items' ->%Hi2. rewrite (Hi1 items1 eq_refl). by rewrite app_assoc.
  - intros [= <- <-]. exists new1. split_and!; [done|lia|done|done].
Qed.

Lemma heading_rank_range (heading : string) : 0 ≤ heading_rank heading ≤ 3.
Proof.
  unfold heading_rank.
  destruct (Str.contains "new submission" heading),
           (Str.contains "cross submission" heading),
           (Str.contains "replacement" heading); lia.
Qed.

Lemma section_trace resp source_cat prio loc section sp sp' r :
  0 ≤ current_section_rank loc ≤ 3 →
  section_body resp source_cat prio loc section sp = (sp', r) →
  ∃ new, effect sp sp' new ∧
         Forall (from_block resp prio section) new ∧
         ∀ loc', r = Ok loc' →
                 page_items loc' = page_items loc ++ new ∧
                 0 ≤ current_section_rank loc' ≤ 3.
Proof.
  intros Hrank. unfold section_body. case_bool_decide as Hh3.
  { intros [= <- <-]. exists []. split_and!; [apply effect_nil|constructor|].
    intros ? [= <-]. simpl. rewrite app_nil_r. split; [done|].
    apply heading_rank_range. }
  case_bool_decide as Hdl.
  { intros [= <- <-]. exists []. split_and!; [apply effect_nil|constructor|].
    intros ? [= <-]. by rewrite app_nil_r. }
  assert (Str.lower (tag section) = "dl") as Htag.
  { by destruct (decide (Str.lower (tag section) = "dl")). }
  unfold bind.
  destruct (for_each _ _ _ sp) as [sp1 r1] eqn:H1.
  apply entries_trace in H1 as (new & He & _ & Hm & Hi).
  assert (Forall (from_block resp prio section) new) as Hfrom.
  { eapply Forall_impl; [exact Hm|]. intros c (entry0 & ? & ?).
    split; [done|]. by exists (current_section_rank loc), entry0. }
  destruct r1 as [items1|e]; intros [= <- <-]; exists new.
  - split_and!; [done..|]. intros ? [= <-]. simpl. split; [by apply Hi|done].
  - split_and!; done.
Qed.

Lemma sections_trace resp source_cat prio sections loc sp sp' r :
  0 ≤ current_section_rank loc ≤ 3 →
  for_each (section_body resp source_cat prio) sections loc sp = (sp', r) →
  ∃ new, effect sp sp' new ∧
         Forall (λ c, ∃ section, section ∈ sections ∧
                                 from_block resp prio section c) new ∧
         ∀ loc', r = Ok loc' → page_items loc' = page_items loc ++ new.
Proof.
  revert loc sp. induction sections as [|section sections IH]; intros loc sp Hrank.
  { intros [= <- <-]. exists []. split_and!; [apply effect_nil|constructor|].
    intros ? [= <-]. by rewrite app_nil_r. }
  simpl. unfold bind at 1.
  destruct (section_body _ _ _ loc section sp) as [sp1 r1] eqn:H1.
  apply section_trace in H1 as (new1 & He1 & Hm1 & Hi1); [|done].
  assert (Forall (λ c, ∃ section0, section0 ∈ section :: sections ∧
                                   from_block resp prio section0 c) new1) as Hm1'.
  { eapply Forall_impl; [exact Hm1|]. intros c ?. exists section.
    split; [apply list_elem_of_here|done]. }
  destruct r1 as [loc1|e].
  - destruct (Hi1 loc1 eq_refl) as [Hitems1 Hrank1].
    intros (new2 & He2 & Hm2 & Hi2)%IH; [|done]. exists (new1 ++ new2). split_and!.
    + by eapply effect_app.
    + apply Forall_app. split; [done|].
      eapply Forall_impl; [exact Hm2|]. intros c (section0 & ? & ?).
      exists section0. split; [by apply list_elem_of_further|done].
    + intros loc' ->%Hi2. by rewrite Hitems1, app_assoc.
  - intros [= <- <-]. exists new1. done.
Qed.

(** the candidates of a page, with where each comes from and what
    collecting them did to the spider *)
Lemma collect_trace resp sp sp' r :
  collect resp sp = (sp', r) →
  ∃ new, effect sp sp' new ∧
         Forall (λ c, ∃ section, section ∈ xpath_sections resp ∧
                   from_block resp
                     (priority_of (CAT_PRIORITY sp) (source_cat_of (url resp)))
                     section c) new ∧
         ∀ items, r = Ok items → items = new.
Proof.
  unfold collect, bind, get_CAT_PRIORITY.
  destruct (for_each _ _ _ sp) as [sp1 r1] eqn:H1.
  apply sections_trace in H1 as (new & He & Hm & Hi); [|simpl; lia].
  destruct r1 as [loc1|e]; intros [= <- <-]; exists new; split_and!; try done.
  intros ? [= <-]. by apply Hi.
Qed.

Lemma list_to_set_perm (l k : list string) :
  l ≡ₚ k → (list_to_set l : gset string) = list_to_set k.
Proof.
  intros H. apply set_eq. intros x. rewrite !elem_of_list_to_set. by rewrite H.
Qed.

Lemma xpath_section_tag resp section :
  section ∈ xpath_sections resp →
  section ∈ dlpage resp ∧ (tag section = "h3" ∨ tag section = "dl").
Proof. unfold xpath_sections. rewrite list_elem_of_filter. tauto. Qed.

Lemma parse_trace resp sp sp' r :
  parse resp sp = (sp', r) →
  ∃ new, effect sp sp' new ∧
         Forall (λ c, ∃ section, section ∈ xpath_sections resp ∧
                   from_block resp
                     (priority_of (CAT_PRIORITY sp) (source_cat_of (url resp)))
                     section c) new ∧
         ∀ ps, r = Ok ps →
               collect resp sp = (sp', Ok new) ∧
               ps = c_paper <$> rank_items new ∧
               fresh_batch sp sp' new.
Proof.
  rewrite parse_collect.
  destruct (collect resp sp) as [sp1 r1] eqn:H1.
  pose proof H1 as H2.
  apply collect_trace in H1 as (new & He & Hm & Hi).
  apply collect_batch in H2 as (new' & Hb & _ & Hi').
  destruct r1 as [items|e]; intros [= <- <-]; exists new; split_and!; try done.
  intros ? [= <-]. rewrite <- (Hi items eq_refl). split_and!; [done..|].
  by rewrite (Hi' items eq_refl).
Qed.

(** ** What a page does to the spider object *)

(** X1.  [parse] leaves the settings of the spider alone and never
    takes an identifier out of [seen_ids] or a line out of the log,
    whether it returns or raises.  When it returns, [seen_ids] has grown
    by exactly the identifiers of the records it yields, and the log by
    at most one line per record. *)
Theorem parse_effect resp sp sp' r :
  parse resp sp = (sp', r) →
  CAT_PRIORITY sp' = CAT_PRIORITY sp ∧
  target_categories sp' = target_categories sp ∧
  start_urls sp' = start_urls sp ∧
  seen_ids sp ⊆ seen_ids sp' ∧
  warnings sp `prefix_of` warnings sp' ∧
  ∀ ps, r = Ok ps →
        seen_ids sp' = list_to_set (id <$> ps) ∪ seen_ids sp ∧
        (length (warnings sp') ≤ length (warnings sp) + length ps)%nat.
Proof.
  intros (new & (Hp & Ht & Hu & Hs & lines & Hw & Hl) & _ & Hok)%parse_trace.
  split_and!; [done..| | |].
  - rewrite Hs. apply union_subseteq_r.
  - by exists lines.
  - intros ps (_ & -> & _)%Hok. split.
    + rewrite Hs, <- list_fmap_compose. f_equal.
      apply list_to_set_perm. by rewrite rank_items_perm.
    + rewrite Hw, length_app, length_fmap, rank_items_perm. lia.
Qed.

(** ** Where a record comes from *)

(** X2.  Every record [parse] yields was built from one entry of one
    [dl] child of the page: its [abs] is the resolved abstract link of
    that entry's [dt], its [id] is what the identifier pattern finds in
    [abs], its categories are the codes found in that entry's [dd], and
    its identifier was not in [seen_ids] when the page was parsed. *)
Theorem emitted_from_entry resp sp sp' ps p :
  parse resp sp = (sp', Ok ps) → p ∈ ps →
  ∃ section entry href,
    section ∈ dlpage resp ∧ tag section = "dl" ∧
    entry ∈ zip (dts section) (dds section) ∧
    abs_href_of entry.1 = Some href ∧
    urljoin resp href = Ok (abs p) ∧
    Re.search_abs_id (abs p) = Some (id p) ∧
    categories p = list_to_set (Re.findall_codes (subjects_text_of entry.2)) ∧
    id p ∉ seen_ids sp.
Proof.
  intros (new & _ & Hm & Hok)%parse_trace Hin.
  destruct (Hok ps eq_refl) as (_ & -> & (_ & _ & _ & Hfresh)).
  apply list_elem_of_fmap in Hin as (c & -> & Hin).
  rewrite rank_items_perm in Hin.
  rewrite Forall_forall in Hm.
  destruct (Hm c Hin) as (section & Hsec & Htag & rank & entry & _ & Hentry &
                          href & abs_url & arxiv_id & Hh & Hu & Hs & ->).
  apply xpath_section_tag in Hsec as [Hsec Htags].
  exists section, entry, href. split_and!; try done.
  - destruct Htags as [H|H]; [|done]. by rewrite H in Htag.
  - by apply (Hfresh _ Hin).
Qed.

(** X3.  Every category of every record [parse] yields has the shape
    of a subject code (a non-empty prefix of lower-case letters and
    hyphens, a dot, two upper-case letters) and stands between
    parentheses in the subject text of an entry of the page; a code
    without the dot and the two capitals is never a category. *)
Theorem categories_well_shaped resp sp sp' ps p c :
  parse resp sp = (sp', Ok ps) → p ∈ ps → c ∈ categories p →
  code_shape c ∧
  ∃ section entry,
    section ∈ dlpage resp ∧ entry ∈ zip (dts section) (dds section) ∧
    occurs ("(" +:+ c +:+ ")") (subjects_text_of entry.2).
Proof.
  intros (new & _ & Hm & Hok)%parse_trace Hin Hc.
  destruct (Hok ps eq_refl) as (_ & -> & _).
  apply list_elem_of_fmap in Hin as (c0 & -> & Hin).
  rewrite rank_items_perm in Hin.
  rewrite Forall_forall in Hm.
  destruct (Hm c0 Hin) as (section & Hsec & Htag & rank & entry & _ & Hentry &
                           href & abs_url & arxiv_id & Hh & Hu & Hs & ->).
  apply xpath_section_tag in Hsec as [Hsec _]. simpl in Hc.
  apply elem_of_list_to_set, findall_codes_sound in Hc as [Hshape Hocc].
  split; [done|]. by exists section, entry.
Qed.

(** ** The sort keys of a page *)

Section SortMore.
Context {A K : Type} (ltb : K → K → bool) (key : A → K).
Hypothesis ltb_irrefl : ∀ x, ltb x x = false.

(** sorting a list whose keys are all equal changes nothing *)
Lemma sort_by_constant (k : K) (l : list A) :
  Forall (λ x, key x = k) l → sort_by ltb key l = l.
Proof.
  induction 1 as [|x l Hx Hl IH]; simpl; [done|].
  rewrite IH. destruct Hl as [|y l Hy Hl]; simpl; [done|].
  by rewrite Hx, Hy, ltb_irrefl.
Qed.


End SortMore.

Lemma Z_ltb_irrefl (x : Z) : Z.ltb x x = false.
Proof. apply Z.ltb_irrefl. Qed.

(** X4.  All candidates of a page carry the page's priority, the
    priority of the source category of its URL, and a section rank from
    0 to 3; on a page where no [h3] is selected they all carry rank 3.
    So the third sort, by [cat_priority], never moves a record: the
    order [parse] yields is the one after the first two sorts. *)
Theorem page_sort_keys resp sp sp' items :
  collect resp sp = (sp', Ok items) →
  Forall (λ c, cat_priority c
               = priority_of (CAT_PRIORITY sp) (source_cat_of (url resp)) ∧
               0 ≤ section_rank c ≤ 3) items ∧
  (Forall (λ e, tag e ≠ "h3") (dlpage resp) →
   Forall (λ c, section_rank c = 3) items) ∧
  rank_items items
  = sort_by Z.ltb section_rank (sort_by_reverse Str.ltb c_id items).
Proof.
  intros Hc. pose proof Hc as Hc'.
  apply collect_trace in Hc as (new & _ & Hm & Hi).
  rewrite <- (Hi items eq_refl) in Hm. clear new Hi.
  assert (Forall (λ c, cat_priority c
               = priority_of (CAT_PRIORITY sp) (source_cat_of (url resp)) ∧
               0 ≤ section_rank c ≤ 3) items) as Hkeys.
  { eapply Forall_impl; [exact Hm|].
    intros c (section & _ & _ & rank & entry & Hr & _ &
              href & abs_url & arxiv_id & _ & _ & _ & ->). done. }
  split_and!; [done| |].
  - intros Hno. unfold collect, bind, get_CAT_PRIORITY in Hc'.
    destruct (for_each _ _ _ sp) as [sp1 [loc1|e]] eqn:H1; [|done].
    injection Hc' as <- <-.
    apply blocks_keep_rank in H1 as (_ & new & -> & Hw); [done|].
    apply Forall_forall. intros e [He [Hh|Hd]]%xpath_section_tag.
    + rewrite Forall_forall in Hno. by destruct (Hno e He).
    + by rewrite Hd.
  - unfold rank_items.
    apply (sort_by_constant _ _ Z_ltb_irrefl
             (priority_of (CAT_PRIORITY sp) (source_cat_of (url resp)))).
    rewrite sort_by_perm, sort_by_reverse_perm.
    eapply Forall_impl; [exact Hkeys|]. by intros c [? _].
Qed.

(** ** A page that raises *)


(** ** A page parsed again *)

Lemma entry_again resp source_cat prio rank items entry sp sp1 items1 :
  entry_body resp source_cat prio rank items entry sp = (sp1, Ok items1) →
  ∀ source_cat' prio' rank' items2 sp2,
    seen_ids sp1 ⊆ seen_ids sp2 →
    entry_body resp source_cat' prio' rank' items2 entry sp2 = (sp2, Ok items2).
Proof.
  destruct entry as [paper_dt paper_dd]. intros H1 source_cat' prio' rank' items2 sp2 Hsub.
  destruct (abs_href_of paper_dt) as [href|] eqn:Hh; [|by apply entry_no_link].
  pose proof (abs_href_of_truthy _ _ Hh) as Ht.
  destruct (urljoin resp href) as [abs_url|e] eqn:Hu.
  2: { by rewrite (entry_urljoin_raises _ _ _ _ _ _ _ _ _ _ Hh Ht Hu) in H1. }
  destruct (Re.search_abs_id abs_url) as [arxiv_id|] eqn:Hs;
    [|by eapply entry_no_id].
  eapply entry_seen; [done..|]. apply Hsub.
  destruct (decide (arxiv_id ∈ seen_ids sp)) as [Hin|Hin].
  - rewrite (entry_seen _ _ _ _ _ _ _ _ _ _ _ Hh Hu Hs Hin) in H1.
    by injection H1 as <- _.
  - rewrite (entry_new _ _ _ _ _ _ _ _ _ _ _ Hh Ht Hu Hs Hin) in H1.
    injection H1 as <- _. simpl. set_solver.
Qed.

Lemma entries_again resp source_cat prio rank entries items sp sp1 items1 :
  for_each (entry_body resp source_cat prio rank) entries items sp
    = (sp1, Ok items1) →
  ∀ source_cat' prio' rank' items2 sp2,
    seen_ids sp1 ⊆ seen_ids sp2 →
    for_each (entry_body resp source_cat' prio' rank') entries items2 sp2
      = (sp2, Ok items2).
Proof.
  revert items sp. induction entries as [|entry entries IH]; intros items sp; [done|].
  simpl. unfold bind at 1.
  destruct (entry_body _ _ _ _ items entry sp) as [sp0 [items0|e]] eqn:H0; [|done].
  intros Hrest source_cat' prio' rank' items2 sp2 Hsub. unfold bind.
  pose proof Hrest as (new & (Hmono & _) & _)%entries_batch.
  rewrite (entry_again _ _ _ _ _ _ _ _ _ H0); [|by trans (seen_ids sp1)].
  by eapply IH.
Qed.

Lemma section_again resp source_cat prio loc section sp sp1 loc1 :
  section_body resp source_cat prio loc section sp = (sp1, Ok loc1) →
  ∀ source_cat' prio' loc2 sp2,
    seen_ids sp1 ⊆ seen_ids sp2 →
    ∃ loc2', section_body resp source_cat' prio' loc2 section sp2
               = (sp2, Ok loc2') ∧
             page_items loc2' = page_items loc2.
Proof.
  unfold section_body. case_bool_decide.
  { intros _ * _. by eexists. }
  case_bool_decide.
  { intros _ * _. by eexists. }
  unfold bind.
  destruct (for_each _ _ _ sp) as [sp0 [items0|e]] eqn:Hent; [|done].
  intros [= <- <-] source_cat' prio' loc2 sp2 Hsub.
  rewrite (entries_again _ _ _ _ _ _ _ _ _ Hent _ _ _ (page_items loc2) sp2 Hsub).
  by eexists.
Qed.

Lemma sections_again resp source_cat prio sections loc sp sp1 loc1 :
  for_each (section_body resp source_cat prio) sections loc sp = (sp1, Ok loc1) →
  ∀ source_cat' prio' loc2 sp2,
    seen_ids sp1 ⊆ seen_ids sp2 →
    ∃ loc2', for_each (section_body resp source_cat' prio') sections loc2 sp2
               = (sp2, Ok loc2') ∧
             page_items loc2' = page_items loc2.
Proof.
  revert loc sp. induction sections as [|section sections IH]; intros loc sp.
  { intros _ * _. by eexists. }
  simpl. unfold bind at 1.
  destruct (section_body _ _ _ loc section sp) as [sp0 [loc0|e]] eqn:H0; [|done].
  intros Hrest source_cat' prio' loc2 sp2 Hsub. unfold bind.
  pose proof Hrest as (new & (Hmono & _) & _)%sections_batch.
  destruct (section_again _ _ _ _ _ _ _ _ H0 source_cat' prio' loc2 sp2)
    as (loc2' & -> & Hitems); [by trans (seen_ids sp1)|].
  destruct (IH _ _ Hrest source_cat' prio' loc2' sp2 Hsub) as (loc2'' & -> & ?).
  eexists. split; [done|]. congruence.
Qed.

(** X6.  Once [parse] has returned on a page, parsing the same page
    again, at any later point of the run, yields no record, logs
    nothing and leaves the spider as it is. *)
Theorem reparse_yields_nothing resp sp sp1 ps sp2 :
  parse resp sp = (sp1, Ok ps) →
  seen_ids sp1 ⊆ seen_ids sp2 →
  parse resp sp2 = (sp2, Ok []).
Proof.
  rewrite !parse_collect.
  destruct (collect resp sp) as [sp0 [items|e]] eqn:Hc; [|done].
  intros [= <- <-] Hsub.
  unfold collect, bind, get_CAT_PRIORITY in Hc |- *.
  destruct (for_each _ _ _ sp) as [sp' [loc|e]] eqn:H0; [|done].
  injection Hc as <- _.
  destruct (sections_again _ _ _ _ _ _ _ _ H0
              (source_cat_of (url resp))
              (priority_of (CAT_PRIORITY sp2) (source_cat_of (url resp)))
              (Locals [] 3) sp2 Hsub) as (loc2 & -> & Hitems).
  unfold ret. simpl in Hitems. by rewrite Hitems.
Qed.

(** ** The ranked order *)

Lemma NoDup_fmap_eq {A B} (f : A → B) (l : list A) (x y : A) :
  NoDup (f <$> l) → x ∈ l → y ∈ l → f x = f y → x = y.
Proof.
  intros Hnd [i Hi]%list_elem_of_lookup [j Hj]%list_elem_of_lookup Hf.
  assert (i = j) as ->; [|congruence].
  apply (NoDup_lookup _ i j (f x) Hnd); rewrite list_lookup_fmap.
  - by rewrite Hi.
  - by rewrite Hj, Hf.
Qed.

(** X7.  For candidates with distinct identifiers, the ranked order
    depends only on which candidates there are, not on the order in
    which the page listed them; ranking a ranked list changes nothing;
    and ranking neither drops nor repeats a record. *)
Theorem rank_items_canonical (items : list candidate) :
  NoDup (c_id <$> items) →
  (∀ items', items ≡ₚ items' → rank_items items' = rank_items items) ∧
  rank_items (rank_items items) = rank_items items ∧
  c_paper <$> rank_items items ≡ₚ c_paper <$> items.
Proof.
  intros Hnd.
  assert (∀ items', items ≡ₚ items' → rank_items items' = rank_items items)
    as Hcanon.
  { intros items' Hperm.
    apply (StronglySorted_unique_strong rank_order);
      [|apply rank_items_sorted..|by rewrite !rank_items_perm].
    intros x y Hx Hy Hxy Hyx.
    rewrite rank_items_perm, <- Hperm in Hx. rewrite rank_items_perm in Hy.
    apply (NoDup_fmap_eq c_id items); [done..|].
    apply rank_order_inv in Hxy as [?|[Hc [?|[Hs Hge1]]]];
      apply rank_order_inv in Hyx as [?|[Hc' [?|[Hs' Hge2]]]]; try lia.
    by apply str_ltb_tricho. }
  split_and!; [done| |].
  - apply Hcanon. by rewrite rank_items_perm.
  - by rewrite rank_items_perm.
Qed.

(** ** The start URLs *)


Lemma StronglySorted_True {A} (l : list A) : StronglySorted (λ _ _, True) l.
Proof. induction l; constructor; [done|]. by apply Forall_forall. Qed.






Lemma requested_categories_elem (env : option string) (c : string) :
  c ∈ requested_categories env ↔
  c ≠ "" ∧ ∃ t, t ∈ Str.split "," (default "cs.CV" env) ∧ c = Str.strip t.
Proof.
  unfold requested_categories.
  rewrite list_elem_of_fmap. setoid_rewrite list_elem_of_filter. split.
  - intros (t & -> & Ht & Hin). split; [by destruct (Str.strip t)|eauto].
  - intros (Hne & t & Hin & ->). exists t. split_and!; [done| |done].
    by destruct (Str.strip t).
Qed.


(** ** From a start URL back to its category *)

Lemma list_new_at_not_slash (c : ascii) (s : string) :
  c ≠ "/"%char → Re.list_new_at (String c s) = None.
Proof.
  intros Hc. unfold Re.list_new_at.
  change (Str.strip_prefix "/list/" (String c s))
    with (if Ascii.eqb "/" c then Str.strip_prefix "list/" s else None).
  by destruct (Ascii.eqb_spec "/" c) as [<-|].
Qed.

Lemma list_new_at_slash_other (c : ascii) (s : string) :
  c ≠ "l"%char → Re.list_new_at (String "/" (String c s)) = None.
Proof.
  intros Hc. unfold Re.list_new_at.
  change (Str.strip_prefix "/list/" (String "/" (String c s)))
    with (if Ascii.eqb "l" c then Str.strip_prefix "ist/" s else None).
  by destruct (Ascii.eqb_spec "l" c) as [<-|].
Qed.

Lemma search_list_new_list_url (cat : string) :
  cat ≠ "" → Str.all Re.not_slash cat = true →
  Re.search_list_new (list_url cat) = Some cat.
Proof.
  intros Hne Hcat. unfold list_url.
  pose proof (list_new_at_app cat "" Hne Hcat) as E.
  rewrite str_app_nil_r in E.
  cbn [String.append] in E |- *.
  repeat (rewrite search_list_new_cons;
          first [ rewrite list_new_at_not_slash by discriminate
                | rewrite list_new_at_slash_other by discriminate ]).
  by rewrite search_list_new_cons, E.
Qed.

(** X10.  For a category that is not empty and contains no "/", the
    source category [parse] reads off the start URL that [__init__]
    built for it is that category again, so the page gets the priority
    under which its URL was sorted. *)
Theorem source_cat_of_list_url (cat : string) :
  cat ≠ "" → Str.all Re.not_slash cat = true →
  source_cat_of (list_url cat) = cat ∧
  ∀ d, priority_of d (source_cat_of (list_url cat)) = priority_of d cat.
Proof.
  intros Hne Hcat.
  assert (source_cat_of (list_url cat) = cat) as ->; [|done].
  unfold source_cat_of. by rewrite search_list_new_list_url.
Qed.

(** X11.  When no requested category contains a "/", the start URLs
    are in ascending order of the priority [parse] will give their
    pages: a page of a smaller priority is never after one of a larger
    priority. *)
Theorem start_pages_priority_sorted (env : option string) :
  Forall (λ c, Str.all Re.not_slash c = true) (requested_categories env) →
  StronglySorted Z.le
    ((λ u, priority_of (CAT_PRIORITY (init env)) (source_cat_of u))
       <$> start_urls (init env)).
Proof.
  intros Hno.
  set (d := CAT_PRIORITY (init env)).
  change (start_urls (init env))
    with (list_url <$> sort_by Z.ltb (priority_of d) (requested_categories env)).
  rewrite <- list_fmap_compose.
  rewrite (Forall_fmap_ext_1 _ (priority_of d)).
  - apply (StronglySorted_fmap _ (then_by Z.ltb (priority_of d) (λ _ _, True))).
    + intros a b [H%Z.ltb_lt|[H _]]; lia.
    + apply (sort_by_sorted Z.ltb (priority_of d) Z_ltb_trans Z_ltb_tricho),
        StronglySorted_True.
  - rewrite sort_by_perm. apply Forall_forall. intros c Hc. simpl.
    unfold source_cat_of. rewrite search_list_new_list_url; [done| |].
    + by apply requested_categories_elem in Hc as [? _].
    + rewrite Forall_forall in Hno. by apply Hno.
Qed.

(** ** Headings *)

Lemma is_space_lower_char (c : ascii) :
  Str.is_space (Str.lower_char c) = Str.is_space c.
Proof. by destruct c as [[] [] [] [] [] [] [] []]. Qed.

Lemma lower_lstrip (s : string) :
  Str.lower (Str.lstrip s) = Str.lstrip (Str.lower s).
Proof.
  induction s as [|c s IH]; simpl; [done|].
  rewrite is_space_lower_char. by destruct (Str.is_space c).
Qed.

Lemma lower_rstrip (s : string) :
  Str.lower (Str.rstrip s) = Str.rstrip (Str.lower s).
Proof.
  induction s as [|c s IH]; simpl; [done|].
  rewrite <- IH, is_space_lower_char.
  destruct (Str.rstrip s); simpl; [|done]. by destruct (Str.is_space c).
Qed.

(** X12.  The rank of a heading does not depend on the case of the
    letters A to Z in its text: two headings whose texts are equal once
    lower-cased are classified alike. *)
Theorem heading_case_insensitive (h1 h2 : element) :
  Str.lower (Str.join "" (texts h1)) = Str.lower (Str.join "" (texts h2)) →
  heading_rank (heading_of h1) = heading_rank (heading_of h2).
Proof.
  intros H. unfold heading_of, Str.strip.
  by rewrite !lower_rstrip, !lower_lstrip, H.
Qed.

(** ** List blocks *)

(** X13.  A list block appends at most as many records as it has
    [dt]/[dd] pairs, the smaller of the two counts; elements beyond that
    count are not looked at: the block behaves as the block cut down to
    its pairs.  A child that is not a list block appends nothing. *)
Theorem block_pairs resp source_cat prio loc section sp :
  let n := (length (dts section) `min` length (dds section))%nat in
  section_body resp source_cat prio loc section sp
  = section_body resp source_cat prio loc
      (Element (tag section) (texts section)
               (take n (dts section)) (take n (dds section))) sp ∧
  ∀ sp' loc',
    section_body resp source_cat prio loc section sp = (sp', Ok loc') →
    ∃ new, page_items loc' = page_items loc ++ new ∧
           (length new ≤ n)%nat ∧
           (Str.lower (tag section) ≠ "dl" → new = []).
Proof.
  intros n. split.
  - unfold section_body, heading_of. cbn [tag texts dts dds].
    by rewrite zip_with_take_both' by (subst n; lia).
  - intros sp' loc'. unfold section_body. case_bool_decide as Hh3.
    { intros [= <- <-]. exists []. simpl. rewrite app_nil_r.
      split_and!; [done|lia|done]. }
    case_bool_decide as Hdl.
    { intros [= <- <-]. exists []. rewrite app_nil_r.
      split_and!; [done|simpl; lia|done]. }
    unfold bind.
    destruct (for_each _ _ _ sp) as [sp1 [items1|e]] eqn:H1; [|done].
    intros [= <- <-].
    apply entries_trace in H1 as (new & _ & Hl & _ & Hi).
    exists new. simpl. split_and!; [by apply Hi| |].
    + rewrite length_zip in Hl. subst n. lia.
    + intros Hne. by destruct Hdl.
Qed.

Lemma sections_without_pairs resp source_cat prio sections loc sp :
  Forall (λ s, dts s = [] ∨ dds s = []) sections →
  ∃ loc', for_each (section_body resp source_cat prio) sections loc sp
            = (sp, Ok loc') ∧
          page_items loc' = page_items loc.
Proof.
  intros Hs. revert loc. induction Hs as [|section sections Hsec _ IH]; intros loc.
  { by eexists. }
  simpl. unfold bind at 1.
  assert (∃ loc1, section_body resp source_cat prio loc section sp
                    = (sp, Ok loc1) ∧ page_items loc1 = page_items loc)
    as (loc1 & -> & H1).
  { unfold section_body. case_bool_decide; [by eexists|].
    case_bool_decide; [by eexists|].
    assert (zip (dts section) (dds section) = []) as ->.
    { by destruct Hsec as [-> | ->]; [|destruct (dts section)]. }
    by eexists. }
  destruct (IH loc1) as (loc' & -> & H'). eexists. split; [done|]. congruence.
Qed.

(** X14.  A page without entries (no child of [div#dlpage], headings
    only, or list blocks with no [dt] or no [dd]) yields no record,
    raises nothing and leaves the spider as it is. *)
Theorem page_without_entries resp sp :
  Forall (λ s, dts s = [] ∨ dds s = []) (dlpage resp) →
  parse resp sp = (sp, Ok []).
Proof.
  intros Hs. rewrite parse_collect. unfold collect, bind, get_CAT_PRIORITY.
  destruct (sections_without_pairs resp (source_cat_of (url resp))
              (priority_of (CAT_PRIORITY sp) (source_cat_of (url resp)))
              (xpath_sections resp) (Locals [] 3) sp) as (loc' & -> & Hitems).
  { apply Forall_forall. intros s [Hin _]%xpath_section_tag.
    rewrite Forall_forall in Hs. by apply Hs. }
  unfold ret. simpl in Hitems. by rewrite Hitems.
Qed.

(** ** The abstract link *)

(** X15.  The link an entry is resolved from is never empty, and it
    is the [href] of one of the entry's own anchors: one titled
    "Abstract", or one whose [href] contains "/abs/".  When the first
    anchor titled "Abstract" that has an [href] has a non-empty one, that
    is the link, whatever the other anchors are. *)
Theorem abs_href_of_anchor (paper_dt : dt_elem) :
  (∀ href, abs_href_of paper_dt = Some href →
     href ≠ "" ∧
     ∃ a, a ∈ dt_anchors paper_dt ∧ a_href a = Some href ∧
          (a_title a = Some "Abstract" ∨ occurs "/abs/" href)) ∧
  (∀ href, css_href titled_abstract paper_dt = Some href → href ≠ "" →
     abs_href_of paper_dt = Some href).
Proof.
  split.
  - intros href Hh. split.
    { apply abs_href_of_truthy in Hh. by destruct href. }
    unfold abs_href_of in Hh.
    destruct (truthy_opt (css_href titled_abstract paper_dt)).
    + unfold css_href in Hh. apply head_Some_elem_of, list_elem_of_omap in Hh
        as (a & Hin & Ha).
      exists a. unfold titled_abstract in Ha. case_bool_decide; [|done].
      split_and!; [done..|by left].
    + unfold css_href in Hh. apply head_Some_elem_of, list_elem_of_omap in Hh
        as (a & Hin & Ha).
      exists a. unfold href_has_abs in Ha.
      destruct (a_href a) as [h|] eqn:Hhref; [|done].
      destruct (Str.contains "/abs/" h) eqn:Hc; [|done]. injection Ha as ->.
      split_and!; [done..|]. right. by apply contains_occurs.
  - intros href Hh Hne. unfold abs_href_of. rewrite Hh. simpl.
    by destruct href.
Qed.

(** ** No entry is passed over *)

Lemma entry_marks resp source_cat prio rank items entry sp sp' items' href u x :
  entry_body resp source_cat prio rank items entry sp = (sp', Ok items') →
  abs_href_of entry.1 = Some href → urljoin resp href = Ok u →
  Re.search_abs_id u = Some x → x ∈ seen_ids sp'.
Proof.
  destruct entry as [paper_dt paper_dd]. cbn [fst]. intros Hb Hh Hu Hs.
  pose proof (abs_href_of_truthy _ _ Hh) as Ht.
  destruct (decide (x ∈ seen_ids sp)) as [Hin|Hin].
  - rewrite (entry_seen _ _ _ _ _ _ _ _ _ _ _ Hh Hu Hs Hin) in Hb.
    by injection Hb as <- _.
  - rewrite (entry_new _ _ _ _ _ _ _ _ _ _ _ Hh Ht Hu Hs Hin) in Hb.
    injection Hb as <- _. simpl. apply elem_of_union_l, elem_of_singleton. done.
Qed.

Lemma entries_mark resp source_cat prio rank entries items sp sp' items'
    entry href u x :
  for_each (entry_body resp source_cat prio rank) entries items sp
    = (sp', Ok items') →
  entry ∈ entries →
  abs_href_of entry.1 = Some href → urljoin resp href = Ok u →
  Re.search_abs_id u = Some x → x ∈ seen_ids sp'.
Proof.
  intros Hloop Hin Hh Hu Hs. revert items sp Hloop.
  induction Hin as [entry entries|entry e0 entries Hin IH]; intros items sp;
    simpl; unfold bind at 1.
  - destruct (entry_body _ _ _ _ items entry sp) as [sp0 [items0|e]] eqn:H0;
      [|done].
    intros (new & (Hmono & _) & _)%entries_batch. apply Hmono.
    by eapply entry_marks.
  - destruct (entry_body _ _ _ _ items e0 sp) as [sp0 [items0|e]] eqn:H0;
      [|done].
    by apply IH.
Qed.

Lemma sections_mark resp source_cat prio sections loc sp sp' loc'
    section entry href u x :
  for_each (section_body resp source_cat prio) sections loc sp = (sp', Ok loc') →
  section ∈ sections → Str.lower (tag section) = "dl" →
  entry ∈ zip (dts section) (dds section) →
  abs_href_of entry.1 = Some href → urljoin resp href = Ok u →
  Re.search_abs_id u = Some x → x ∈ seen_ids sp'.
Proof.
  intros Hloop Hsec Htag Hin Hh Hu Hs. revert loc sp Hloop.
  induction Hsec as [section sections|section s0 sections Hsec IH]; intros loc sp;
    simpl; unfold bind at 1.
  - destruct (section_body _ _ _ loc section sp) as [sp0 [loc0|e]] eqn:H0;
      [|done].
    intros (new & (Hmono & _) & _)%sections_batch. apply Hmono.
    unfold section_body in H0. rewrite Htag in H0.
    rewrite bool_decide_eq_false_2, bool_decide_eq_false_2 in H0 by (by intros ?).
    unfold bind in H0.
    destruct (for_each _ _ _ sp) as [sp1 [items1|e]] eqn:H1; [|done].
    injection H0 as <- _. by eapply entries_mark.
  - destruct (section_body _ _ _ loc s0 sp) as [sp0 [loc0|e]] eqn:H0; [|done].
    by apply IH.
Qed.

(** X16.  When [parse] returns, no entry with an identifier was
    passed over: take any entry of any [dl] child of the page whose
    link resolves to a URL in which the pattern finds an identifier;
    that identifier is in [seen_ids] afterwards, and unless it was there
    before the page, one of the records yielded bears it. *)
Theorem entry_accounted_for resp sp sp' ps section entry href u x :
  parse resp sp = (sp', Ok ps) →
  section ∈ dlpage resp → tag section = "dl" →
  entry ∈ zip (dts section) (dds section) →
  abs_href_of entry.1 = Some href → urljoin resp href = Ok u →
  Re.search_abs_id u = Some x →
  x ∈ seen_ids sp' ∧ (x ∉ seen_ids sp → ∃ p, p ∈ ps ∧ id p = x).
Proof.
  intros Hp Hsec Htag Hin Hh Hu Hs.
  assert (x ∈ seen_ids sp') as Hseen.
  { rewrite parse_collect in Hp.
    destruct (collect resp sp) as [sp0 [items|e]] eqn:Hc; [|done].
    injection Hp as <- _.
    unfold collect, bind, get_CAT_PRIORITY in Hc.
    destruct (for_each _ _ _ sp) as [sp1 [loc1|e]] eqn:H1; [|done].
    injection Hc as <- _.
    eapply sections_mark; [exact H1| |by rewrite Htag|done..].
    unfold xpath_sections. apply list_elem_of_filter. auto. }
  split; [done|]. intros Hnew.
  apply parse_trace in Hp as (new & (_ & _ & _ & Hs' & _) & _ & Hok).
  destruct (Hok ps eq_refl) as (_ & -> & _).
  rewrite Hs' in Hseen. apply elem_of_union in Hseen as [Hseen|Hseen]; [|done].
  apply elem_of_list_to_set, list_elem_of_fmap in Hseen as (c & -> & Hc).
  exists (c_paper c). split; [|done].
  apply list_elem_of_fmap_2. by rewrite rank_items_perm.
Qed.

(** ** What the warnings say *)

Lemma warned_app source_cat new1 new2 lines1 lines2 :
  warned source_cat new1 lines1 → warned source_cat new2 lines2 →
  warned source_cat (new1 ++ new2) (lines1 ++ lines2).
Proof.
  intros H1 H2. apply Forall_app. split.
  - eapply Forall_impl; [exact H1|]. intros line (c & ? & ? & ?).
    exists c. split_and!; [|done..]. apply elem_of_app. by left.
  - eapply Forall_impl; [exact H2|]. intros line (c & ? & ? & ?).
    exists c. split_and!; [|done..]. apply elem_of_app. by right.
Qed.

Lemma entry_warns resp source_cat prio rank items entry sp sp' r :
  entry_body resp source_cat prio rank items entry sp = (sp', r) →
  ∃ new lines, warnings sp' = warnings sp ++ lines ∧
               warned source_cat new lines ∧
               ∀ items', r = Ok items' → items' = items ++ new.
Proof.
  destruct entry as [paper_dt paper_dd]. intros Hbody.
  destruct (entry_cases resp source_cat prio rank items paper_dt paper_dd sp)
    as [H|[[e H]|(href & abs_url & arxiv_id & Hh & Ht & Hu & Hs & Hin)]].
  - rewrite H in Hbody. injection Hbody as <- <-. exists [], [].
    split_and!; [by rewrite app_nil_r|constructor|].
    intros ? [= <-]. by rewrite app_nil_r.
  - rewrite H in Hbody. injection Hbody as <- <-. exists [], [].
    split_and!; [by rewrite app_nil_r|constructor|done].
  - rewrite (entry_new _ _ _ _ _ _ _ _ _ _ _ Hh Ht Hu Hs Hin) in Hbody.
    injection Hbody as <- <-. simpl.
    destruct (subjects_text_of paper_dd) as [|c0 s0] eqn:Hsub; simpl.
    + eexists [_], [_]. split_and!; [done| |by intros ? [= <-]].
      repeat constructor. eexists. split; [apply list_elem_of_here|]. done.
    + eexists [_], []. split_and!; [by rewrite app_nil_r|constructor|].
      by intros ? [= <-].
Qed.

Lemma entries_warn resp source_cat prio rank entries items sp sp' r :
  for_each (entry_body resp source_cat prio rank) entries items sp = (sp', r) →
  ∃ new lines, warnings sp' = warnings sp ++ lines ∧
               warned source_cat new lines ∧
               ∀ items', r = Ok items' → items' = items ++ new.
Proof.
  revert items sp. induction entries as [|entry entries IH]; intros items sp.
  { intros [= <- <-]. exists [], [].
    split_and!; [by rewrite app_nil_r|constructor|].
    intros ? [= <-]. by rewrite app_nil_r. }
  simpl. unfold bind at 1.
  destruct (entry_body _ _ _ _ items entry sp) as [sp1 r1] eqn:H1.
  apply entry_warns in H1 as (new1 & lines1 & Hw1 & Hl1 & Hi1).
  destruct r1 as [items1|e].
  - intros (new2 & lines2 & Hw2 & Hl2 & Hi2)%IH.
    exists (new1 ++ new2), (lines1 ++ lines2). split_and!.
    + by rewrite Hw2, Hw1, app_assoc.
    + by apply warned_app.
    + intros items' ->%Hi2. rewrite (Hi1 items1 eq_refl). by rewrite app_assoc.
  - intros [= <- <-]. by exists new1, lines1.
Qed.

Lemma sections_warn resp source_cat prio sections loc sp sp' r :
  for_each (section_body resp source_cat prio) sections loc sp = (sp', r) →
  ∃ new lines, warnings sp' = warnings sp ++ lines ∧
               warned source_cat new lines ∧
               ∀ loc', r = Ok loc' → page_items loc' = page_items loc ++ new.
Proof.
  revert loc sp. induction sections as [|section sections IH]; intros loc sp.
  { intros [= <- <-]. exists [], [].
    split_and!; [by rewrite app_nil_r|constructor|].
    intros ? [= <-]. by rewrite app_nil_r. }
  simpl. unfold bind at 1.
  destruct (section_body _ _ _ loc section sp) as [sp1 r1] eqn:H1.
  assert (∃ new1 lines1, warnings sp1 = warnings sp ++ lines1 ∧
            warned source_cat new1 lines1 ∧
            ∀ loc1, r1 = Ok loc1 → page_items loc1 = page_items loc ++ new1)
    as (new1 & lines1 & Hw1 & Hl1 & Hi1).
  { unfold section_body in H1. case_bool_decide.
    { injection H1 as <- <-. exists [], [].
      split_and!; [by rewrite app_nil_r|constructor|].
      intros ? [= <-]. simpl. by rewrite app_nil_r. }
    case_bool_decide.
    { injection H1 as <- <-. exists [], [].
      split_and!; [by rewrite app_nil_r|constructor|].
      intros ? [= <-]. by rewrite app_nil_r. }
    unfold bind in H1.
    destruct (for_each _ _ _ sp) as [sp0 r0] eqn:Hent.
    apply entries_warn in Hent as (new & lines & Hw & Hl & Hi).
    exists new, lines. destruct r0 as [items0|e]; injection H1 as <- <-.
    - split_and!; [done..|]. intros ? [= <-]. simpl. by apply Hi.
    - by split_and!. }
  destruct r1 as [loc1|e].
  - intros (new2 & lines2 & Hw2 & Hl2 & Hi2)%IH.
    exists (new1 ++ new2), (lines1 ++ lines2). split_and!.
    + by rewrite Hw2, Hw1, app_assoc.
    + by apply warned_app.
    + intros loc' ->%Hi2. rewrite (Hi1 loc1 eq_refl). by rewrite app_assoc.
  - intros [= <- <-]. by exists new1, lines1.
Qed.

(** X17.  Every line [parse] logs when it returns is the warning for
    one of the records it yields: it names that record's identifier and
    the source category of the page's URL, and that record has no
    categories. *)
Theorem warnings_name_records resp sp sp' ps :
  parse resp sp = (sp', Ok ps) →
  ∃ lines,
    warnings sp' = warnings sp ++ lines ∧
    Forall (λ line, ∃ p, p ∈ ps ∧
                         line = warning_line (id p) (source_cat_of (url resp)) ∧
                         categories p = ∅) lines.
Proof.
  rewrite parse_collect.
  destruct (collect resp sp) as [sp0 [items|e]] eqn:Hc; [|done].
  intros [= <- <-].
  unfold collect, bind, get_CAT_PRIORITY in Hc.
  destruct (for_each _ _ _ sp) as [sp1 [loc1|e]] eqn:H1; [|done].
  injection Hc as <- <-.
  apply sections_warn in H1 as (new & lines & Hw & Hl & Hi).
  rewrite (Hi loc1 eq_refl). simpl.
  exists lines. split; [done|].
  eapply Forall_impl; [exact Hl|]. intros line (c & Hin & -> & Hcat).
  exists (c_paper c). split_and!; [|done..].
  apply list_elem_of_fmap_2. by rewrite rank_items_perm.
Qed.

(** ** These theorems on the sample pages *)

Lemma parse_effect_witness :
  seen_ids (init None) ⊆ seen_ids spider_after_sample ∧
  seen_ids spider_after_sample
  = list_to_set (id <$> sample_records) ∪ seen_ids (init None) ∧
  (length (warnings spider_after_sample)
   ≤ length (warnings (init None)) + length sample_records)%nat.
Proof.
  destruct (parse_effect sample_page (init None) spider_after_sample
              (Ok sample_records)) as (_ & _ & _ & Hsub & _ & Hok).
  - vm_compute. reflexivity.
  - destruct (Hok sample_records eq_refl) as [Hseen Hlen]. by split_and!.
Defined.

Lemma emitted_from_entry_witness :
  ∃ section entry href,
    section ∈ dlpage sample_page ∧ tag section = "dl" ∧
    entry ∈ zip (dts section) (dds section) ∧
    abs_href_of entry.1 = Some href ∧
    urljoin sample_page href = Ok (abs sample_record_00001) ∧
    Re.search_abs_id (abs sample_record_00001)
    = Some (id sample_record_00001) ∧
    categories sample_record_00001
    = list_to_set (Re.findall_codes (subjects_text_of entry.2)) ∧
    id sample_record_00001 ∉ seen_ids (init None).
Proof.
  apply (emitted_from_entry sample_page (init None) spider_after_sample
           sample_records sample_record_00001).
  - vm_compute. reflexivity.
  - apply list_elem_of_lookup. exists 1%nat. vm_compute. reflexivity.
Defined.

Lemma categories_well_shaped_witness :
  code_shape "math.QA" ∧
  ∃ section entry,
    section ∈ dlpage sample_page ∧ entry ∈ zip (dts section) (dds section) ∧
    occurs ("(" +:+ "math.QA" +:+ ")") (subjects_text_of entry.2).
Proof.
  apply (categories_well_shaped sample_page (init None) spider_after_sample
           sample_records sample_record_00001 "math.QA").
  - vm_compute. reflexivity.
  - apply list_elem_of_lookup. exists 1%nat. vm_compute. reflexivity.
  - apply (bool_decide_unpack _). vm_compute. exact I.
Defined.

Lemma page_sort_keys_witness :
  let items := candidates_of sample_page (init None) in
  Forall (λ c, cat_priority c
               = priority_of (CAT_PRIORITY (init None))
                             (source_cat_of (url sample_page)) ∧
               0 ≤ section_rank c ≤ 3) items ∧
  (Forall (λ e, tag e ≠ "h3") (dlpage sample_page) →
   Forall (λ c, section_rank c = 3) items) ∧
  rank_items items
  = sort_by Z.ltb section_rank (sort_by_reverse Str.ltb c_id items).
Proof.
  apply (page_sort_keys sample_page (init None) spider_after_sample).
  vm_compute. reflexivity.
Defined.


Lemma reparse_yields_nothing_witness :
  parse sample_page spider_after_sample = (spider_after_sample, Ok []).
Proof.
  apply (reparse_yields_nothing sample_page (init None) spider_after_sample
           sample_records spider_after_sample).
  - vm_compute. reflexivity.
  - reflexivity.
Defined.

Lemma rank_items_canonical_witness :
  (∀ items', sample_candidates ≡ₚ items' →
             rank_items items' = rank_items sample_candidates) ∧
  rank_items (rank_items sample_candidates) = rank_items sample_candidates ∧
  c_paper <$> rank_items sample_candidates ≡ₚ c_paper <$> sample_candidates.
Proof.
  apply (rank_items_canonical sample_candidates).
  apply (bool_decide_unpack _). vm_compute. exact I.
Defined.


Lemma source_cat_of_list_url_witness :
  source_cat_of (list_url "math.RT") = "math.RT" ∧
  ∀ d, priority_of d (source_cat_of (list_url "math.RT"))
       = priority_of d "math.RT".
Proof.
  apply (source_cat_of_list_url "math.RT"); [discriminate|reflexivity].
Defined.

Lemma start_pages_priority_sorted_witness :
  StronglySorted Z.le
    ((λ u, priority_of (CAT_PRIORITY (init (Some "math.RT,cs.CV,math.QA")))
                       (source_cat_of u))
       <$> start_urls (init (Some "math.RT,cs.CV,math.QA"))).
Proof.
  apply (start_pages_priority_sorted (Some "math.RT,cs.CV,math.QA")).
  repeat constructor.
Defined.

Lemma heading_case_insensitive_witness :
  heading_rank (heading_of (h3 "CROSS SUBMISSIONS (showing 3 of 3 entries)"))
  = heading_rank (heading_of (h3 "Cross submissions (showing 3 of 3 entries)")).
Proof.
  apply (heading_case_insensitive
           (h3 "CROSS SUBMISSIONS (showing 3 of 3 entries)")
           (h3 "Cross submissions (showing 3 of 3 entries)")).
  reflexivity.
Defined.

Lemma block_pairs_witness :
  ∃ new,
    page_items (Locals [cand "2406.00001" 0 0] 0) = [] ++ new ∧
    (length new ≤ length (dts uneven_block) `min` length (dds uneven_block))%nat ∧
    (Str.lower (tag uneven_block) ≠ "dl" → new = []).
Proof.
  apply (proj2 (block_pairs sample_page "math.QA" 0 (Locals [] 0) uneven_block
                  (init None))
           (section_body sample_page "math.QA" 0 (Locals [] 0) uneven_block
              (init None)).1).
  vm_compute. reflexivity.
Defined.

Lemma page_without_entries_witness :
  parse headings_only_page (init None) = (init None, Ok []).
Proof.
  apply (page_without_entries headings_only_page (init None)).
  repeat constructor.
Defined.

Lemma abs_href_of_anchor_witness :
  "/abs/2406.00001" ≠ "" ∧
  ∃ a, a ∈ dt_anchors two_anchor_dt ∧ a_href a = Some "/abs/2406.00001" ∧
       (a_title a = Some "Abstract" ∨ occurs "/abs/" "/abs/2406.00001").
Proof.
  apply (proj1 (abs_href_of_anchor two_anchor_dt) "/abs/2406.00001").
  reflexivity.
Defined.

Lemma entry_accounted_for_witness :
  "2406.00003" ∈ seen_ids spider_after_sample ∧
  ("2406.00003" ∉ seen_ids (init None) →
   ∃ p, p ∈ sample_records ∧ id p = "2406.00003").
Proof.
  apply (entry_accounted_for sample_page (init None) spider_after_sample
           sample_records sample_cross_block sample_cross_entry
           "/abs/2406.00003" "https://arxiv.org/abs/2406.00003").
  - vm_compute. reflexivity.
  - apply list_elem_of_lookup. exists 3%nat. reflexivity.
  - reflexivity.
  - apply list_elem_of_lookup. exists 0%nat. reflexivity.
  - reflexivity.
  - reflexivity.
  - reflexivity.
Defined.

Lemma warnings_name_records_witness :
  ∃ lines,
    warnings spider_after_sample = warnings (init None) ++ lines ∧
    Forall (λ line, ∃ p, p ∈ sample_records ∧
              line = warning_line (id p) (source_cat_of (url sample_page)) ∧
              categories p = ∅) lines.
Proof.
  apply (warnings_name_records sample_page (init None) spider_after_sample
           sample_records).
  vm_compute. reflexivity.
Defined.
